(** * OpenShift bootstrap helper (pkg/bootstrap/docker/openshift/helper.go)

    A shallow embedding of the helper that brings up the OpenShift master
    inside a Docker container, together with the properties of its port
    check, its configuration patching and its start-up sequence. *)

From Stdlib Require Import ZArith Ascii String List Lia.
From stdpp Require Import base option list gmap strings pretty.

Local Open Scope string_scope.
Local Open Scope Z_scope.
Local Open Scope list_scope.

(** ** Go values shared by the whole file *)

(** Modelled from the spec: the constructors [ErrOpenShiftFailedToStart] and
    [ErrTimedOutWaitingForStart] live in another file of the package, and
    [NewError]/[WithCause] in the bootstrap errors package; neither is in
    helper.go.  The spec lists FailedToStart and TimedOutWaitingForStart as
    two error kinds, "deliberately distinct", so each is a constructor of its
    own that carries the container name.  [NewError msg cause] is
    [errors.NewError(msg).WithCause(cause)], where a nil cause is [None];
    [Raw] is an error value made by the Go library or by a collaborator. *)
#[warnings="-register-all"] Inductive error : Type :=
  | Raw (msg : string)
  | NewError (msg : string) (cause : option error)
  | ErrOpenShiftFailedToStart (container : string)
  | ErrTimedOutWaitingForStart (container : string).

(** The cause an error carries, [nil] when it has none. *)
Definition Cause (e : error) : option error :=
  match e with
  | NewError _ cause => cause
  | _ => None
  end.

(** ** The parts of Go's [strings] and [strconv] the helper calls *)

Module GoStrings.

(** [strings.Split(s, sep)] for a separator of one byte, the only kind the
    helper passes: n separators give n+1 pieces, the empty string gives
    one empty piece. *)
Fixpoint Split (s : string) (sep : ascii) : list string :=
  match s with
  | EmptyString => [EmptyString]
  | String c rest =>
      if Ascii.eqb c sep then EmptyString :: Split rest sep
      else match Split rest sep with
           | [] => [String c EmptyString]
           | piece :: pieces => String c piece :: pieces
           end
  end.

(** [strings.Contains(s, sep)] for a separator of one byte. *)
Fixpoint Contains (s : string) (sep : ascii) : bool :=
  match s with
  | EmptyString => false
  | String c rest => Ascii.eqb c sep || Contains rest sep
  end.

Definition byteZ (c : ascii) : Z := Z.of_N (N_of_ascii c).

(** How many bytes the white-space rune at the head of [s] takes, 0 when
    the head is not white space.  [unicode.IsSpace] accepts the six ASCII
    blanks, U+0085, U+00A0, U+1680, U+2000..U+200A, U+2028, U+2029, U+202F,
    U+205F and U+3000; the multi-byte ones are matched on their UTF-8
    encoding.  A lead byte is never a continuation byte, so scanning byte
    by byte meets the same runes as Go's decoder does. *)
Definition spaceWidth (s : string) : nat :=
  match s with
  | EmptyString => 0%nat
  | String c0 rest =>
      let b0 := byteZ c0 in
      if ((9 <=? b0) && (b0 <=? 13)) || (b0 =? 32) then 1%nat
      else match rest with
           | EmptyString => 0%nat
           | String c1 rest1 =>
               let b1 := byteZ c1 in
               if (b0 =? 194) && ((b1 =? 133) || (b1 =? 160)) then 2%nat
               else match rest1 with
                    | EmptyString => 0%nat
                    | String c2 _ =>
                        let b2 := byteZ c2 in
                        if (b0 =? 225) && (b1 =? 154) && (b2 =? 128) then 3%nat
                        else if (b0 =? 226) && (b1 =? 128) &&
                                (((128 <=? b2) && (b2 <=? 138)) ||
                                 (b2 =? 168) || (b2 =? 169) || (b2 =? 175))
                             then 3%nat
                        else if (b0 =? 226) && (b1 =? 129) && (b2 =? 159) then 3%nat
                        else if (b0 =? 227) && (b1 =? 128) && (b2 =? 128) then 3%nat
                        else 0%nat
                    end
           end
  end.

(** The field being collected is kept reversed in [cur]. *)
Definition flush (cur : string) : list string :=
  match cur with
  | EmptyString => []
  | _ => [String.rev cur]
  end.

(** [skip] counts the bytes of a white-space rune still to be dropped. *)
Fixpoint fieldsFrom (s : string) (skip : nat) (cur : string) : list string :=
  match s with
  | EmptyString => flush cur
  | String c rest =>
      match skip with
      | S k => fieldsFrom rest k cur
      | O =>
          match spaceWidth s with
          | O => fieldsFrom rest 0%nat (String c cur)
          | S k => flush cur ++ fieldsFrom rest k EmptyString
          end
      end
  end.

(** [strings.Fields(s)]: the maximal runs of bytes between white space. *)
Definition Fields (s : string) : list string := fieldsFrom s 0%nat EmptyString.

(** [strings.Join(l, sep)], which is how [%v] lays out a slice. *)
Fixpoint Join (l : list string) (sep : string) : string :=
  match l with
  | [] => EmptyString
  | [x] => x
  | x :: rest => x +:+ sep +:+ Join rest sep
  end.

End GoStrings.

Module GoStrconv.

Import GoStrings.

(** The value of one digit: 0-9, then a-z and A-Z from ten upwards. *)
Definition digitVal (c : ascii) : option Z :=
  let d := byteZ c in
  if (48 <=? d) && (d <=? 57) then Some (d - 48)
  else if (97 <=? d) && (d <=? 122) then Some (d - 97 + 10)
  else if (65 <=? d) && (d <=? 90) then Some (d - 65 + 10)
  else None.

Fixpoint parseDigits (base : Z) (s : string) (acc : Z) : option Z :=
  match s with
  | EmptyString => Some acc
  | String c rest =>
      match digitVal c with
      | Some v => if v <? base then parseDigits base rest (acc * base + v) else None
      | None => None
      end
  end.

(** [strconv.IntSize] on the 64-bit platforms the tool is built for. *)
Definition IntSize : Z := 64.

(** [strconv.ParseUint(s, base, bitSize)] for an explicit base: [None]
    stands for either of its errors (syntax, range). *)
Definition ParseUint (s : string) (base bitSize : Z) : option Z :=
  match s with
  | EmptyString => None
  | _ =>
      match parseDigits base s 0 with
      | Some n => if n <? 2 ^ bitSize then Some n else None
      | None => None
      end
  end.

(** [strconv.ParseInt(s, base, bitSize)]: an optional sign, then the
    digits; a bit size of 0 means [int].  [None] stands for [err != nil]. *)
Definition ParseInt (s : string) (base bitSize : Z) : option Z :=
  match s with
  | EmptyString => None
  | String c rest =>
      let bits := if bitSize =? 0 then IntSize else bitSize in
      let '(neg, digits) :=
        if Ascii.eqb c "+" then (false, rest)
        else if Ascii.eqb c "-" then (true, rest)
        else (false, s) in
      match ParseUint digits base bits with
      | None => None
      | Some un =>
          let cutoff := 2 ^ (bits - 1) in
          if negb neg && (cutoff <=? un) then None
          else if neg && (cutoff <? un) then None
          else Some (if neg then - un else un)
      end
  end.

End GoStrconv.

(** ** Run-time faults *)

(** A Go expression either yields a value or panics; the only panic the
    helper can raise is an index out of range. *)
Inductive go (A : Type) : Type :=
  | Normal (a : A)
  | IndexOutOfRange (index len : nat).
Arguments Normal {A} a.
Arguments IndexOutOfRange {A} index len.

#[global] Instance go_ret : MRet go := @Normal.
#[global] Instance go_bind : MBind go := λ A B f m,
  match m with
  | Normal a => f a
  | IndexOutOfRange i n => IndexOutOfRange i n
  end.

(** [l[i]] with Go's bounds check. *)
Definition index {A} (l : list A) (i : nat) : go A :=
  match l !! i with
  | Some x => Normal x
  | None => IndexOutOfRange i (length l)
  end.

(** ** The port check *)

Module Ports.

Import GoStrings GoStrconv.

Definition tcpPorts : list Z := [53; 80; 443; 4001; 7001; 8443; 10250].

(** The body of the [for _, line := range lines] loop of [getUsedPorts]:
    [ports] is the map built so far, the result is the map after this line
    ([continue] leaves it as it was). *)
Definition usedPortsLine (ports : gset Z) (line : string) : go (gset Z) :=
  let parts := Fields line in
  if (length parts <? 2)%nat then Normal ports else
  p0 ← index parts 0;
  if negb (Contains p0 ":") then Normal ports else
  p1 ← index parts 1;
  let localAddress := Split p1 ":" in
  if (length localAddress <? 2)%nat then Normal ports else
  state ← index parts 3;
  if negb (String.eqb state "0A") then Normal ports else
  hex ← index localAddress 1;
  match ParseInt hex 16 0 with
  | Some port => Normal ({[port]} ∪ ports)
  | None => Normal ports
  end.

Fixpoint usedPortsLines (ports : gset Z) (lines : list string) : go (gset Z) :=
  match lines with
  | [] => Normal ports
  | line :: rest => ports' ← usedPortsLine ports line; usedPortsLines ports' rest
  end.

Definition getUsedPorts (data : string) : go (gset Z) :=
  usedPortsLines ∅ (Split data "010").

(** [fmt.Sprintf("%v", conflicts)] for a slice of ints. *)
Definition formatInts (l : list Z) : string :=
  "[" +:+ Join (pretty <$> l) " " +:+ "]".

(** The slice [conflicts] that [checkPortsInUse] collects. *)
Definition conflictsOf (used : gset Z) (ports : list Z) : list Z :=
  filter (λ port, port ∈ used) ports.

Definition checkPortsInUse (data : string) (ports : list Z) : go (option error) :=
  used ← getUsedPorts data;
  let conflicts := conflictsOf used ports in
  if (0 <? length conflicts)%nat
  then Normal (Some (Raw ("the following required ports are in use: " +:+ formatInts conflicts)))
  else Normal None.

End Ports.


(** ** The start-up sequence *)

Module OpenShift.

Import GoStrings.

(** *** Data *)

(** [Helper] without its four collaborator handles, whose behaviour is
    part of the [World] below. *)
Record Helper : Type := {
  publicHost : string;
  image : string;
  containerName : string;
  routingSuffix : string;
}.

Record StartOptions : Type := {
  ServerIP : string;
  UseSharedVolume : bool;
  ImageTag : string;
  HostVolumesDir : string;
  HostConfigDir : string;
  HostDataDir : string;
  UseExistingConfig : bool;
  Environment : list string;
  LogLevel : Z;
}.

(** The master configuration: the one field the helper touches, and all
    the others together. *)
Record MasterConfig (Rest : Type) : Type := {
  RoutingConfig_Subdomain : string;
  otherFields : Rest;
}.
Arguments RoutingConfig_Subdomain {Rest} _.
Arguments otherFields {Rest} _.

Definition setSubdomain {Rest} (cfg : MasterConfig Rest) (sub : string) : MasterConfig Rest :=
  {| RoutingConfig_Subdomain := sub; otherFields := otherFields cfg |}.

(** A directory tree: slash-separated relative path to file contents. *)
Abbreviation tree := (gmap string string).

(** A path below a staged directory: the directory and the rest, so that
    [filepath.Join(configDir, "master", "master-config.yaml")] is
    [(configDir, "master/master-config.yaml")]. *)
Definition path : Type := string * string.

Definition masterConfigYAML : string := "master/master-config.yaml".

(** What the run helper is asked to do: the builder calls between
    [runHelper.New()] and [Run()] or [Start()]. *)
Record RunSpec : Type := {
  rImage : string;
  rName : string;
  rPrivileged : bool;
  rDiscardContainer : bool;
  rHostNetwork : bool;
  rHostPid : bool;
  rBinds : list string;
  rEnv : list string;
  rCommand : list string;
}.

(** What [client.Get] gives back: an error, or a response with its status
    code and what [ioutil.ReadAll] makes of its body. *)
Inductive GetResult : Type :=
  | GetError (ierr : error)
  | Response (StatusCode : Z) (Body : error + string).

(** Everything the helper does to the outside, in order. *)
Inductive Event : Type :=
  | EPrint (msg : string)
  | EMkdirTemp (dir : string)
  | ECopyFromHost (hostDir tempDir : string)
  | ERemoveAll (dir : string)
  | EWriteFile (file : path)
  | ECopyMasterConfigToHost (file : path) (hostDir : string)
  | EHostname
  | ERun (spec : RunSpec)
  | EStart (spec : RunSpec)
  | ESleep (milliseconds : Z)
  | EGetContainerState (name : string)
  | EDial (address : string) (retries : Z)
  | ETransportFor (caCert : path)
  | EHttpGet (url : string).

(** The answers of the collaborators that are asked once per attempt. *)
Record Env : Type := {
  run_err : option error;
  writeFile_err : option error;
  copyMasterConfigToHost_err : option error;
  hostname_result : error + string;
  start_err : option error;
  containerState_result : error + bool;
  dial_err : option error;
  transportFor_err : option error;
}.

(** The world of one attempt: the local temporary directories, the trace,
    and the answers still to come of the collaborators that are asked
    more than once (the random names [ioutil.TempDir] draws, the outcomes
    of [CopyFromHost], the responses of the readiness URL). *)
Record World : Type := {
  env : Env;
  local : gmap string tree;
  trace : list Event;
  tmpNames : list string;
  copies : list (error + tree);
  responses : list GetResult;
}.

Definition setLocal (f : gmap string tree → gmap string tree) (w : World) : World :=
  {| env := env w; local := f (local w); trace := trace w;
     tmpNames := tmpNames w; copies := copies w; responses := responses w |}.
Definition addEvent (e : Event) (w : World) : World :=
  {| env := env w; local := local w; trace := trace w ++ [e];
     tmpNames := tmpNames w; copies := copies w; responses := responses w |}.
Definition setTmpNames (l : list string) (w : World) : World :=
  {| env := env w; local := local w; trace := trace w;
     tmpNames := l; copies := copies w; responses := responses w |}.
Definition setCopies (l : list (error + tree)) (w : World) : World :=
  {| env := env w; local := local w; trace := trace w;
     tmpNames := tmpNames w; copies := l; responses := responses w |}.
Definition setResponses (l : list GetResult) (w : World) : World :=
  {| env := env w; local := local w; trace := trace w;
     tmpNames := tmpNames w; copies := copies w; responses := l |}.

(** *** Statements with early return *)

(** A statement of a function whose result type is [R] either goes on
    with a value, executes [return r], or never gets that far because the
    readiness URL keeps answering "not yet" for as long as it is scripted
    to answer. *)
Inductive Step (R A : Type) : Type :=
  | Val (a : A)
  | Ret (r : R)
  | Hang.
Arguments Val {R A} a.
Arguments Ret {R A} r.
Arguments Hang {R A}.

Definition M (R A : Type) : Type := World → Step R A * World.

#[global] Instance M_ret R : MRet (M R) := λ A a w, (Val a, w).
#[global] Instance M_bind R : MBind (M R) := λ A B f m w,
  match m w with
  | (Val a, w') => f a w'
  | (Ret r, w') => (Ret r, w')
  | (Hang, w') => (Hang, w')
  end.

Definition val {R A} (a : A) : M R A := mret a.
Definition ret {R A} (r : R) : M R A := λ w, (Ret r, w).
Definition hang {R A} : M R A := λ w, (Hang, w).

(** A call: the callee's [return r] is the value of the call. *)
Definition call {R R'} (body : M R R) : M R' R := λ w,
  match body w with
  | (Val r, w') => (Val r, w')
  | (Ret r, w') => (Val r, w')
  | (Hang, w') => (Hang, w')
  end.

Definition emit {R} (e : Event) : M R unit := λ w, (Val tt, addEvent e w).
Definition ask {R A} (f : Env → A) : M R A := λ w, (Val (f (env w)), w).

(** *** The collaborators *)

Section Collaborators.

Context {R : Type}.

(** [fmt.Fprintf(out, ...)]. *)
Definition Fprintf (msg : string) : M R unit := emit (EPrint msg).

(** [time.Sleep]. *)
Definition Sleep (milliseconds : Z) : M R unit := emit (ESleep milliseconds).

(** [ioutil.TempDir("", prefix)] draws names until one does not exist yet
    and makes that directory; it gives up when it has no name left. *)
Fixpoint pickTemp (fs : gmap string tree) (prefix : string) (names : list string)
    : option string * list string :=
  match names with
  | [] => (None, [])
  | n :: rest =>
      let try := "/tmp/" +:+ prefix +:+ n in
      match fs !! try with
      | Some _ => pickTemp fs prefix rest
      | None => (Some try, rest)
      end
  end.

Definition TempDir (prefix : string) : M R (string * option error) := λ w,
  match pickTemp (local w) prefix (tmpNames w) with
  | (Some dir, rest) =>
      (Val (dir, None), addEvent (EMkdirTemp dir) (setLocal (insert dir ∅) (setTmpNames rest w)))
  | (None, rest) =>
      (Val ("", Some (Raw "cannot create temporary directory")), setTmpNames rest w)
  end.

(** [os.RemoveAll]: nothing is left of the directory; the empty path
    names nothing. *)
Definition RemoveAll (dir : string) : M R unit := λ w,
  (Val tt, addEvent (ERemoveAll dir)
             (if String.eqb dir "" then w else setLocal (delete dir) w)).

(** [hostHelper.CopyFromHost(hostDir, tempDir)]: the next scripted outcome,
    an error or the tree that arrives in [tempDir]. *)
Definition CopyFromHost (hostDir tempDir : string) : M R (option error) := λ w,
  let w1 := addEvent (ECopyFromHost hostDir tempDir) w in
  match copies w with
  | [] => (Val (Some (Raw "cannot copy from host")), w1)
  | inl e :: rest => (Val (Some e), setCopies rest w1)
  | inr t :: rest => (Val None, setLocal (insert tempDir t) (setCopies rest w1))
  end.

Definition fileAt (fs : gmap string tree) (p : path) : option string :=
  fs !! p.1 ≫= (λ t : tree, t !! p.2).

(** [os.Stat]: succeeds exactly on a file that is there. *)
Definition Stat (p : path) : M R (option error) := λ w,
  match fileAt (local w) p with
  | Some _ => (Val None, w)
  | None => (Val (Some (Raw "no such file or directory")), w)
  end.

(** [ioutil.WriteFile]: fails when told to, or when the directory is
    gone; otherwise the file has the new contents. *)
Definition WriteFile (p : path) (data : string) : M R (option error) := λ w,
  let w1 := addEvent (EWriteFile p) w in
  match writeFile_err (env w), local w !! p.1 with
  | Some e, _ => (Val (Some e), w1)
  | None, None => (Val (Some (Raw "no such file or directory")), w1)
  | None, Some t => (Val None, setLocal (insert p.1 (<[p.2 := data]> t)) w1)
  end.

Definition CopyMasterConfigToHost (file : path) (hostDir : string) : M R (option error) :=
  emit (ECopyMasterConfigToHost file hostDir);; ask copyMasterConfigToHost_err.

Definition Hostname : M R (error + string) := emit EHostname;; ask hostname_result.

Definition Run (spec : RunSpec) : M R (option error) := emit (ERun spec);; ask run_err.

Definition StartContainer (spec : RunSpec) : M R (option error) :=
  emit (EStart spec);; ask start_err.

Definition GetContainerState (name : string) : M R (error + bool) :=
  emit (EGetContainerState name);; ask containerState_result.

(** [cmdutil.WaitForSuccessfulDial]: [None] once a dial succeeds, an
    error when the retries are used up. *)
Definition WaitForSuccessfulDial (address : string) (retries : Z) : M R (option error) :=
  emit (EDial address retries);; ask dial_err.

(** [client.Get(url)] once it has been answered: the request is in the
    trace and [rest] is what the readiness URL will answer from now on. *)
Definition Get (url : string) (rest : list GetResult) : M R unit := λ w,
  (Val tt, addEvent (EHttpGet url) (setResponses rest w)).

End Collaborators.

(** *** helper.go *)

Definition initialStatusCheckWait : Z := 4 * 1000.
Definition serverUpTimeout : Z := 35.
Definition StatusOK : Z := 200.
Definition StatusForbidden : Z := 403.
Definition StatusServiceUnavailable : Z := 503.

Definition openShiftContainerBinds : list string :=
  ["/:/rootfs:ro"; "/var/run:/var/run:rw"; "/sys:/sys:ro"; "/var/lib/docker:/var/lib/docker"].

(** The line feed that ends the progress messages. *)
Definition nl : string := String "010" EmptyString.

Definition Master (ip : string) : string := "https://" +:+ ip +:+ ":8443".

Definition healthzReadyURL (ip : string) : string := Master ip +:+ "/healthz/ready".

(** [copyConfig]: a fresh temporary directory filled from the host; the
    directory is removed again when the copy fails. *)
Definition copyConfig {R} (hostDir : string) : M R (string * option error) :=
  call (
    '(tempDir, err) ← TempDir "openshift-config";
    match err with Some e => ret ("", Some e) | None => val tt end;;
    err ← CopyFromHost hostDir tempDir;
    match err with
    | Some e => RemoveAll tempDir;; ret ("", Some e)
    | None => val tt
    end;;
    ret (tempDir, None)).

Definition getOpenShiftConfigFiles {R} : M R (string * string * option error) :=
  call (
    r ← Hostname;
    match r with
    | inl err => ret ("", "", Some err)
    | inr hostname =>
        ret ("/var/lib/origin/openshift.local.config/master/master-config.yaml",
             "/var/lib/origin/openshift.local.config/node-" +:+ hostname +:+ "/node-config.yaml",
             None)
    end).

(** [masterHTTPClient]: the client is a value without behaviour of its
    own here, only the error of [cmdutil.TransportFor] matters. *)
Definition masterHTTPClient {R} (localConfig : string) : M R (option error) :=
  emit (ETransportFor (localConfig, "master/ca.crt"));; ask transportFor_err.

(** The [for] loop of [Start] that polls the readiness URL.  [err] is the
    variable of that name in [Start], as it stands when the loop is
    entered; [script] is what the readiness URL answers, request after
    request.  With no answer left the loop is still waiting. *)
Fixpoint readinessLoop (url : string) (err : option error) (script : list GetResult)
    : M (string * option error) unit :=
  match script with
  | [] => hang
  | r :: rest =>
      Get url rest;;
      match r with
      | GetError ierr =>
          ret ("", Some (NewError ("cannot access master readiness URL " +:+ url) err))
      | Response StatusCode Body =>
          let ierr : option error := None in
          if StatusCode =? StatusOK then val tt
          else if (StatusCode =? StatusServiceUnavailable) || (StatusCode =? StatusForbidden)
          then Sleep 500;; readinessLoop url err rest
          else
            let responseBody := match Body with inr body => body | inl _ => "" end in
            ret ("", Some (NewError ("server is not ready. Response (" +:+ pretty StatusCode
                                       +:+ "): " +:+ responseBody) ierr))
      end
  end.

Section Codec.

(** The configuration codec ([configapilatest]) is a collaborator: how it
    decodes the bytes of a master configuration file and how it encodes
    a configuration are parameters. *)
Context {Rest : Type}.
Variable DecodeMasterConfig : string → error + MasterConfig Rest.
Variable WriteYAML : MasterConfig Rest → error + string.

(** [configapilatest.ReadMasterConfig(filename)]: read the file, decode. *)
Definition ReadMasterConfig {R} (filename : path) : M R (error + MasterConfig Rest) := λ w,
  match fileAt (local w) filename with
  | None => (Val (inl (Raw "no such file or directory")), w)
  | Some data => (Val (DecodeMasterConfig data), w)
  end.

Definition updateConfig {R} (h : Helper) (configDir hostDir serverIP : string)
    : M R (option error) :=
  call (
    let masterConfig := (configDir, masterConfigYAML) in
    r ← ReadMasterConfig masterConfig;
    cfg ← match r with inl err => ret (Some err) | inr cfg => val cfg end;
    let cfg :=
      if (0 <? String.length (routingSuffix h))%nat
      then setSubdomain cfg (routingSuffix h)
      else setSubdomain cfg (serverIP +:+ ".xip.io") in
    cfgBytes ← match WriteYAML cfg with inl err => ret (Some err) | inr bytes => val bytes end;
    err ← WriteFile masterConfig cfgBytes;
    match err with Some e => ret (Some e) | None => val tt end;;
    err ← CopyMasterConfigToHost masterConfig hostDir;
    ret err).

(** The closure [cleanupConfig], applied to what [configDir] holds when
    it is called. *)
Definition cleanupConfig {R} (configDir : string) : M R unit := RemoveAll configDir.

Definition createConfigCmd (h : Helper) (opt : StartOptions) : list string :=
  let cmd :=
    ["start";
     "--images=openshift/origin-${component}:" +:+ ImageTag opt;
     "--master=" +:+ ServerIP opt;
     "--volume-dir=" +:+ HostVolumesDir opt;
     "--dns=0.0.0.0:53";
     "--write-config=/var/lib/origin/openshift.local.config"] in
  if (0 <? String.length (publicHost h))%nat
  then cmd ++ ["--public-master=https://" +:+ publicHost h +:+ ":8443"]
  else cmd.

Definition startCmd (opt : StartOptions) (masterConfig nodeConfig : string) : list string :=
  let cmd :=
    ["start"; "--master-config=" +:+ masterConfig; "--node-config=" +:+ nodeConfig] in
  if 0 <? LogLevel opt then cmd ++ ["--loglevel=" +:+ pretty (LogLevel opt)] else cmd.

(** [Start]: the value of the call is the pair [(path, err)] it returns. *)
Definition Start {R} (h : Helper) (opt : StartOptions) : M R (string * option error) :=
  call (
    let binds := openShiftContainerBinds in
    let env : list string := [] in
    let '(binds, env) :=
      if UseSharedVolume opt
      then (binds ++ [HostVolumesDir opt +:+ ":" +:+ HostVolumesDir opt +:+ ":shared"],
            env ++ ["OPENSHIFT_CONTAINERIZED=false"])
      else (binds ++ [HostVolumesDir opt +:+ ":" +:+ HostVolumesDir opt], env) in
    let env := env ++ Environment opt in
    let binds :=
      binds ++ [HostConfigDir opt +:+ ":/var/lib/origin/openshift.local.config:z"] in
    (* the existing configuration, when asked for *)
    '(configDir, skipCreateConfig) ←
      (if UseExistingConfig opt then
         '(configDir, err) ← copyConfig (HostConfigDir opt);
         match err with
         | None =>
             err ← Stat (configDir, masterConfigYAML);
             match err with
             | None => val (configDir, true)
             | Some _ => val (configDir, false)
             end
         | Some _ => val (configDir, false)
         end
       else val ("", false));
    (* create the configuration if needed *)
    configDir ←
      (if negb skipCreateConfig then
         Fprintf ("Creating initial OpenShift configuration" +:+ nl);;
         err ← Run {| rImage := image h; rName := ""; rPrivileged := true;
                      rDiscardContainer := true; rHostNetwork := true; rHostPid := true;
                      rBinds := binds; rEnv := env; rCommand := createConfigCmd h opt |};
         match err with
         | Some e => ret ("", Some (NewError "could not create OpenShift configuration" (Some e)))
         | None => val tt
         end;;
         '(configDir, err) ← copyConfig (HostConfigDir opt);
         match err with
         | Some e => ret ("", Some (NewError "could not copy OpenShift configuration" (Some e)))
         | None => val tt
         end;;
         err ← updateConfig h configDir (HostConfigDir opt) (ServerIP opt);
         match err with
         | Some e =>
             cleanupConfig configDir;;
             ret ("", Some (NewError "could not update OpenShift configuration" (Some e)))
         | None => val tt
         end;;
         val configDir
       else val configDir);
    '(masterConfig, nodeConfig, err) ← getOpenShiftConfigFiles;
    match err with
    | Some e =>
        cleanupConfig configDir;;
        ret ("", Some (NewError "could not get OpenShift configuration file paths" (Some e)))
    | None => val tt
    end;;
    Fprintf ("Starting OpenShift using container '" +:+ containerName h +:+ "'" +:+ nl);;
    let binds :=
      if (0 <? String.length (HostDataDir opt))%nat
      then binds ++ [HostDataDir opt +:+ ":/var/lib/origin/openshift.local.etcd:z"]
      else binds in
    err ← StartContainer {| rImage := image h; rName := containerName h; rPrivileged := true;
                            rDiscardContainer := false; rHostNetwork := true; rHostPid := true;
                            rBinds := binds; rEnv := env;
                            rCommand := startCmd opt masterConfig nodeConfig |};
    match err with
    | Some e => ret ("", Some (NewError "cannot start OpenShift daemon" (Some e)))
    | None => val tt
    end;;
    (* wait a minimum amount of time and check whether we are still running *)
    Sleep initialStatusCheckWait;;
    r ← GetContainerState (containerName h);
    running ← match r with
              | inl e =>
                  ret ("", Some (NewError ("cannot get state of OpenShift container "
                                             +:+ containerName h) (Some e)))
              | inr running => val running
              end;
    (if negb running then ret ("", Some (ErrOpenShiftFailedToStart (containerName h)))
     else val tt);;
    (* wait until the API server is listening *)
    Fprintf ("Waiting for API server to start listening" +:+ nl);;
    let masterHost := ServerIP opt +:+ ":8443" in
    err ← WaitForSuccessfulDial masterHost serverUpTimeout;
    match err with
    | Some _ => ret ("", Some (ErrTimedOutWaitingForStart (containerName h)))
    | None => val tt
    end;;
    (* check for the healthz endpoint to be ready *)
    err ← masterHTTPClient configDir;
    match err with Some e => ret ("", Some e) | None => val tt end;;
    (λ w, readinessLoop (healthzReadyURL (ServerIP opt)) err (responses w) w);;
    Fprintf ("OpenShift server started" +:+ nl);;
    ret (configDir, None)).

End Codec.

End OpenShift.

(** ** Reading traces *)

Module Traces.

Import OpenShift.

(** [a] is directly followed by [b] somewhere in [l]. *)
Definition adjacent {A} (a b : A) (l : list A) : Prop :=
  ∃ pre post, l = pre ++ a :: b :: post.

(** Events that only concern the staging of a directory that did not
    exist in [fs]. *)
Definition staging (fs : gmap string tree) (e : Event) : Prop :=
  match e with
  | EMkdirTemp d | ECopyFromHost _ d | ERemoveAll d => fs !! d = None
  | _ => False
  end.

(** Events of the configuration patch. *)
Definition patching (e : Event) : Prop :=
  match e with
  | EWriteFile _ | ECopyMasterConfigToHost _ _ => True
  | _ => False
  end.

(** Events of the readiness poll. *)
Definition polling (url : string) (e : Event) : Prop :=
  e = EHttpGet url ∨ e = ESleep 500.

(** The directories a trace removes, in order. *)
Fixpoint removals (tr : list Event) : list string :=
  match tr with
  | [] => []
  | ERemoveAll d :: rest => d :: removals rest
  | _ :: rest => removals rest
  end.

(** The number of HTTP requests in a trace. *)
Fixpoint requests (tr : list Event) : nat :=
  match tr with
  | [] => 0
  | EHttpGet _ :: rest => S (requests rest)
  | _ :: rest => requests rest
  end.

(** The responses on which the readiness loop sleeps and asks again. *)
Definition isTransient (r : GetResult) : bool :=
  match r with
  | GetError _ => false
  | Response code _ => (code =? StatusServiceUnavailable) || (code =? StatusForbidden)
  end.

End Traces.

(** ** A concrete codec and concrete attempts *)

Module Scenario.

Import GoStrings OpenShift.

(** The text before the first line feed, and the text after it. *)
Fixpoint cutLine (s : string) : option (string * string) :=
  match s with
  | EmptyString => None
  | String c rest =>
      if Ascii.eqb c "010" then Some (EmptyString, rest)
      else match cutLine rest with
           | Some (line, more) => Some (String c line, more)
           | None => None
           end
  end.

(** A codec that keeps the routing subdomain on the first line of the file
    and everything else below it. *)
Definition decodeLines (data : string) : error + MasterConfig string :=
  match cutLine data with
  | Some (sub, more) => inr {| RoutingConfig_Subdomain := sub; otherFields := more |}
  | None => inl (Raw "master config without routing subdomain")
  end.

Definition encodeLines (cfg : MasterConfig string) : error + string :=
  if Contains (RoutingConfig_Subdomain cfg) "010"
  then inl (Raw "routing subdomain spans lines")
  else inr (RoutingConfig_Subdomain cfg +:+ nl +:+ otherFields cfg).

Definition origin : Helper :=
  {| publicHost := ""; image := "openshift/origin"; containerName := "origin";
     routingSuffix := "" |}.

Definition fresh : StartOptions :=
  {| ServerIP := "10.0.0.5"; UseSharedVolume := false; ImageTag := "latest";
     HostVolumesDir := "/var/lib/origin/openshift.local.volumes";
     HostConfigDir := "/var/lib/origin/openshift.local.config";
     HostDataDir := ""; UseExistingConfig := false; Environment := []; LogLevel := 0 |}.

Definition reuse : StartOptions :=
  {| ServerIP := "10.0.0.5"; UseSharedVolume := false; ImageTag := "latest";
     HostVolumesDir := "/var/lib/origin/openshift.local.volumes";
     HostConfigDir := "/var/lib/origin/openshift.local.config";
     HostDataDir := ""; UseExistingConfig := true; Environment := []; LogLevel := 0 |}.

(** Every collaborator does its job; the container is running or not. *)
Definition healthy (running : bool) : Env :=
  {| run_err := None; writeFile_err := None; copyMasterConfigToHost_err := None;
     hostname_result := inr "node1"; start_err := None;
     containerState_result := inr running; dial_err := None; transportFor_err := None |}.

(** The container runs but nothing ever listens on the secure port. *)
Definition unreachable : Env :=
  {| run_err := None; writeFile_err := None; copyMasterConfigToHost_err := None;
     hostname_result := inr "node1"; start_err := None;
     containerState_result := inr true;
     dial_err := Some (Raw "dial tcp 10.0.0.5:8443: connection refused");
     transportFor_err := None |}.

(** The configuration tree on the host once it has been generated. *)
Definition generated : tree :=
  {[ "master/master-config.yaml" := "router.default.local" +:+ nl +:+ "servingInfo: {}";
     "master/ca.crt" := "-----BEGIN CERTIFICATE-----" ]}.

(** A host configuration directory that holds no master configuration. *)
Definition incomplete : tree := {[ "master/ca.crt" := "-----BEGIN CERTIFICATE-----" ]}.

Definition world (e : Env) (hostCopies : list (error + tree)) (answers : list GetResult)
    : World :=
  {| env := e; local := ∅; trace := []; tmpNames := ["073214"; "551902"];
     copies := hostCopies; responses := answers |}.

Definition staged : string := "/tmp/openshift-config073214".
Definition staged2 : string := "/tmp/openshift-config551902".

End Scenario.

(** ** More concrete attempts *)

Module Attempts.

Import OpenShift Scenario.

(** An error is classified when [Start] made it itself: a [NewError] with
    the message of the stage, or one of the two start-up kinds.  A [Raw]
    error is the value of a collaborator, passed on as it came. *)
Definition classified (e : error) : bool :=
  match e with
  | Raw _ => false
  | NewError _ _ | ErrOpenShiftFailedToStart _ | ErrTimedOutWaitingForStart _ => true
  end.

(** The copy back to the host fails. *)
Definition hostReadOnly : Env :=
  {| run_err := None; writeFile_err := None;
     copyMasterConfigToHost_err := Some (Raw "read-only file system");
     hostname_result := inr "node1"; start_err := None;
     containerState_result := inr true; dial_err := None; transportFor_err := None |}.

(** The state of the container cannot be queried. *)
Definition stateUnknown : Env :=
  {| run_err := None; writeFile_err := None; copyMasterConfigToHost_err := None;
     hostname_result := inr "node1"; start_err := None;
     containerState_result := inl (Raw "no such container");
     dial_err := None; transportFor_err := None |}.

(** The CA certificate of the staged configuration cannot be loaded. *)
Definition badCA : Env :=
  {| run_err := None; writeFile_err := None; copyMasterConfigToHost_err := None;
     hostname_result := inr "node1"; start_err := None;
     containerState_result := inr true; dial_err := None;
     transportFor_err := Some (Raw "x509: malformed certificate") |}.

(** A world in which the first name [ioutil.TempDir] draws is taken. *)
Definition occupied (answers : list GetResult) : World :=
  {| env := healthy true; local := {[ staged := incomplete ]}; trace := [];
     tmpNames := ["073214"; "551902"]; copies := [inr generated]; responses := answers |}.

(** [Start] of the helper [origin] with the line codec. *)
Definition attempt (opt : StartOptions) (w : World)
    : Step unit (string * option error) * World :=
  Start decodeLines encodeLines origin opt w.

End Attempts.


(** ** The probes of the Docker host *)

Module Probes.

Import GoStrings Ports.

(** [TestPorts], given what [CombinedOutput] of the container that prints
    /proc/net/tcp and /proc/net/tcp6 returns: an error, or the text. *)
Definition TestPorts (combinedOutput : error + string) : go (option error) :=
  match combinedOutput with
  | inl err =>
      Normal (Some (NewError "Cannot get TCP port information from Kubernetes host" (Some err)))
  | inr portData =>
      err ← checkPortsInUse portData tcpPorts;
      match err with
      | Some err => Normal (Some (NewError "TCP port conflict" (Some err)))
      | None => Normal None
      end
  end.

(** The loop of [OtherIPs] over the candidates. *)
Definition otherIPs (candidates : list string) (excludeIP : string) : list string :=
  filter (λ ip, ip ≠ excludeIP ∧ Contains ip ":" = false) candidates.

(** [OtherIPs], given what [Output] of the container that runs
    [hostname -I] returns.  The nil slice of the error case is the empty
    list. *)
Definition OtherIPs (output : error + string) (excludeIP : string)
    : list string * option error :=
  match output with
  | inl err => ([], Some err)
  | inr result => (otherIPs (Split result " ") excludeIP, None)
  end.

(** A line on which [getUsedPorts] reads past the end of [parts]: two or
    three fields, a colon in each of the first two. *)
Definition truncated (line : string) : bool :=
  let parts := Fields line in
  (2 <=? length parts)%nat && (length parts <? 4)%nat &&
  match parts with
  | p0 :: p1 :: _ => Contains p0 ":" && Contains p1 ":"
  | _ => false
  end.

End Probes.

(** ** Counting in traces *)

Module Counts.

Import OpenShift.

(** How often a trace runs the generation command. *)
Fixpoint runs (tr : list Event) : nat :=
  match tr with
  | [] => 0
  | ERun _ :: rest => S (runs rest)
  | _ :: rest => runs rest
  end.

(** How often a trace launches a container. *)
Fixpoint launches (tr : list Event) : nat :=
  match tr with
  | [] => 0
  | EStart _ :: rest => S (launches rest)
  | _ :: rest => launches rest
  end.

(** The trace of [n] rounds of the readiness loop that end in a sleep. *)
Fixpoint rounds (url : string) (n : nat) : list Event :=
  match n with
  | O => []
  | S k => EHttpGet url :: ESleep 500 :: rounds url k
  end.

(** The routing subdomain [updateConfig] sets: the routing suffix of the
    helper when it has one, the xip.io name of the server otherwise. *)
Definition patchedSubdomain (h : Helper) (serverIP : string) : string :=
  if (0 <? String.length (routingSuffix h))%nat then routingSuffix h
  else serverIP +:+ ".xip.io".


End Counts.

(** * Properties *)

(** ** The port check *)

Module PortsFacts.
Import GoStrings GoStrconv Ports.

Lemma Split_nonempty s sep : Split s sep ≠ [].
Proof.
  destruct s as [|c s]; simpl; [done|].
  destruct (Ascii.eqb c sep); [done|]. by destruct (Split s sep).
Qed.

Lemma Split_length_Contains s sep :
  Contains s sep = true ↔ (2 ≤ length (Split s sep))%nat.
Proof.
  induction s as [|c s IH]; simpl.
  - split; [done | lia].
  - destruct (Ascii.eqb c sep); simpl.
    + split; [intros _|done].
      pose proof (Split_nonempty s sep). destruct (Split s sep); [done | simpl; lia].
    + rewrite IH. pose proof (Split_nonempty s sep).
      destruct (Split s sep); [done | simpl; lia].
Qed.

Lemma usedPortsLine_few_fields ports line :
  (length (Fields line) < 2)%nat → usedPortsLine ports line = Normal ports.
Proof.
  intros H. unfold usedPortsLine.
  destruct (Nat.ltb_spec (length (Fields line)) 2); [done | lia].
Qed.

Lemma usedPortsLine_no_separator ports line p0 :
  Fields line !! 0%nat = Some p0 → Contains p0 ":" = false →
  usedPortsLine ports line = Normal ports.
Proof.
  intros H0 Hc. unfold usedPortsLine, index.
  destruct (length (Fields line) <? 2)%nat; [done|].
  rewrite H0. simpl. by rewrite Hc.
Qed.

Lemma usedPortsLine_not_listening ports line state :
  Fields line !! 3%nat = Some state → state ≠ "0A" →
  usedPortsLine ports line = Normal ports.
Proof.
  intros H3 Hs. unfold usedPortsLine, index.
  destruct (length (Fields line) <? 2)%nat; [done|].
  destruct (Fields line) as [|p0 [|p1 [|p2 [|p3 parts]]]]; try done.
  simpl in *. injection H3 as ->.
  destruct (Contains p0 ":"); [simpl|done].
  destruct (length (Split p1 ":") <? 2)%nat; [done|].
  destruct (String.eqb_spec state "0A"); [done|]. done.
Qed.

Lemma usedPortsLine_listening ports line p0 p1 hex port :
  Fields line !! 0%nat = Some p0 → Contains p0 ":" = true →
  Fields line !! 1%nat = Some p1 → Split p1 ":" !! 1%nat = Some hex →
  Fields line !! 3%nat = Some "0A" → ParseInt hex 16 0 = Some port →
  usedPortsLine ports line = Normal ({[port]} ∪ ports).
Proof.
  intros H0 Hc H1 Hh H3 Hp. unfold usedPortsLine, index.
  apply lookup_lt_Some in H3 as Hlen.
  destruct (Nat.ltb_spec (length (Fields line)) 2) as [?|_]; [lia|].
  rewrite H0. simpl. rewrite Hc. simpl. rewrite H1. simpl.
  apply lookup_lt_Some in Hh as Hlen'.
  destruct (Nat.ltb_spec (length (Split p1 ":")) 2) as [?|_]; [lia|].
  rewrite H3. simpl. rewrite Hh. simpl. by rewrite Hp.
Qed.

(** A line of two or three fields that looks like connection data makes
    the loop read a fourth field that is not there. *)
Lemma usedPortsLine_short_line ports line p0 p1 :
  (length (Fields line) < 4)%nat →
  Fields line !! 0%nat = Some p0 → Contains p0 ":" = true →
  Fields line !! 1%nat = Some p1 → Contains p1 ":" = true →
  usedPortsLine ports line = IndexOutOfRange 3 (length (Fields line)).
Proof.
  intros Hlen H0 Hc H1 Hc1. unfold usedPortsLine, index.
  apply lookup_lt_Some in H1 as Hlen1.
  destruct (Nat.ltb_spec (length (Fields line)) 2) as [?|_]; [lia|].
  rewrite H0. simpl. rewrite Hc. simpl. rewrite H1. simpl.
  apply Split_length_Contains in Hc1.
  destruct (Nat.ltb_spec (length (Split p1 ":")) 2) as [?|_]; [lia|].
  by rewrite (lookup_ge_None_2 (Fields line) 3) by lia.
Qed.

Lemma usedPortsLine_mono ports line ports' :
  usedPortsLine ports line = Normal ports' → ports ⊆ ports'.
Proof.
  unfold usedPortsLine, index.
  repeat (match goal with
          | |- context [if ?b then _ else _] => destruct b
          | |- context [match ?x with _ => _ end] => destruct x
          end; simpl); intros [= <-]; set_solver.
Qed.

Lemma usedPortsLines_mono lines ports used :
  usedPortsLines ports lines = Normal used → ports ⊆ used.
Proof.
  revert ports. induction lines as [|line lines IH]; simpl; intros ports.
  - by intros [= <-].
  - destruct (usedPortsLine ports line) as [ports'|] eqn:Hl; simpl; [|done].
    intros H. apply usedPortsLine_mono in Hl. apply IH in H. set_solver.
Qed.

(** What one line adds when it adds anything. *)
Lemma usedPortsLine_adds ports line ports' port :
  usedPortsLine ports line = Normal ports' → port ∈ ports' → port ∉ ports →
  Fields line !! 3%nat = Some "0A" ∧
  ∃ p1 hex, Fields line !! 1%nat = Some p1 ∧ Split p1 ":" !! 1%nat = Some hex ∧
            ParseInt hex 16 0 = Some port.
Proof.
  assert (∀ P : Prop, Normal ports = Normal ports' → port ∈ ports' → port ∉ ports → P)
    as Hsame by (intros P [= <-] ??; done).
  unfold usedPortsLine, index.
  destruct (length (Fields line) <? 2)%nat; [apply Hsame|].
  destruct (Fields line !! 0%nat) as [p0|]; simpl; [|done].
  destruct (Contains p0 ":"); simpl; [|apply Hsame].
  destruct (Fields line !! 1%nat) as [p1|]; simpl; [|done].
  destruct (length (Split p1 ":") <? 2)%nat; [apply Hsame|].
  destruct (Fields line !! 3%nat) as [state|]; simpl; [|done].
  destruct (String.eqb_spec state "0A") as [->|]; simpl; [|apply Hsame].
  destruct (Split p1 ":" !! 1%nat) as [hex|] eqn:Hh; simpl; [|done].
  destruct (ParseInt hex 16 0) as [q|] eqn:Hq; [|apply Hsame].
  intros [= <-] Hin Hnin. apply elem_of_union in Hin as [Hin%elem_of_singleton|]; [subst q|done].
  split; [done|]. by exists p1, hex.
Qed.

Lemma usedPortsLines_listening lines ports used line p0 p1 hex port :
  usedPortsLines ports lines = Normal used → line ∈ lines →
  Fields line !! 0%nat = Some p0 → Contains p0 ":" = true →
  Fields line !! 1%nat = Some p1 → Split p1 ":" !! 1%nat = Some hex →
  Fields line !! 3%nat = Some "0A" → ParseInt hex 16 0 = Some port →
  port ∈ used.
Proof.
  intros Hrun Hin H0 Hc H1 Hh H3 Hp. revert ports Hrun.
  induction lines as [|l lines IH]; simpl; intros ports; [by apply not_elem_of_nil in Hin|].
  apply elem_of_cons in Hin as [<-|Hin].
  - rewrite (usedPortsLine_listening ports line p0 p1 hex port) by done. simpl.
    intros H. apply usedPortsLines_mono in H. set_solver.
  - destruct (usedPortsLine ports l) as [ports'|]; simpl; [|done]. by apply IH.
Qed.

Lemma usedPortsLines_origin lines ports used port :
  usedPortsLines ports lines = Normal used → port ∈ used → port ∉ ports →
  ∃ line p1 hex, line ∈ lines ∧ Fields line !! 3%nat = Some "0A" ∧
    Fields line !! 1%nat = Some p1 ∧ Split p1 ":" !! 1%nat = Some hex ∧
    ParseInt hex 16 0 = Some port.
Proof.
  revert ports. induction lines as [|l lines IH]; simpl; intros ports.
  - intros [= <-]; done.
  - destruct (usedPortsLine ports l) as [ports'|] eqn:Hl; simpl; [|done].
    intros Hrun Hin Hnin. destruct (decide (port ∈ ports')) as [Hin'|Hnin'].
    + destruct (usedPortsLine_adds _ _ _ _ Hl Hin' Hnin) as (H3 & p1 & hex & ? & ? & ?).
      exists l, p1, hex. split; [left|done].
    + destruct (IH _ Hrun Hin Hnin') as (line & p1 & hex & ? & ?).
      exists line, p1, hex. split; [by right|done].
Qed.

Lemma conflictsOf_spec used ports port :
  port ∈ conflictsOf used ports ↔ port ∈ ports ∧ port ∈ used.
Proof. unfold conflictsOf. rewrite list_elem_of_filter. tauto. Qed.

Lemma checkPortsInUse_conflict data ports used port :
  getUsedPorts data = Normal used → port ∈ ports → port ∈ used →
  checkPortsInUse data ports =
    Normal (Some (Raw ("the following required ports are in use: "
                         +:+ formatInts (conflictsOf used ports)))).
Proof.
  intros Hu Hp Hin. unfold checkPortsInUse. rewrite Hu. simpl.
  assert (port ∈ conflictsOf used ports) as Hc by by apply conflictsOf_spec.
  destruct (conflictsOf used ports); [by apply not_elem_of_nil in Hc | done].
Qed.

Lemma checkPortsInUse_free data ports used :
  getUsedPorts data = Normal used → (∀ port, port ∈ ports → port ∉ used) →
  checkPortsInUse data ports = Normal None.
Proof.
  intros Hu Hfree. unfold checkPortsInUse. rewrite Hu. simpl.
  destruct (conflictsOf used ports) as [|q l] eqn:Hc; [done|].
  assert (q ∈ conflictsOf used ports) as Hq by (rewrite Hc; left).
  apply conflictsOf_spec in Hq as [??]. naive_solver.
Qed.

Lemma checkPortsInUse_fault data ports i n :
  getUsedPorts data = IndexOutOfRange i n →
  checkPortsInUse data ports = IndexOutOfRange i n.
Proof. intros Hu. unfold checkPortsInUse. by rewrite Hu. Qed.

(** C5, as the code has it.  The claim says that [getUsedPorts] never
    faults and that a line of fewer than four fields is skipped.  The guard
    of the loop is [len(parts) < 2], yet the loop reads [parts[3]]: a line
    of two or three fields whose first two fields hold a colon makes the
    function panic with an index out of range. *)
Theorem getUsedPorts_truncated_line_faults :
  getUsedPorts "   0: 0100007F:0035 00000000:0000" = IndexOutOfRange 3 3 ∧
  getUsedPorts "tcp: 0100007F:0035" = IndexOutOfRange 3 2.
Proof. split; vm_compute; reflexivity. Qed.

(** C4, as the code has it.  The claim says that for every text with a
    listening line on a required port [checkPortsInUse] returns the error
    that reports this port.  With one truncated line beside the listening
    line the call panics instead (the fault of C5); without it the port is
    reported. *)
Theorem checkPortsInUse_faults_beside_conflict :
  checkPortsInUse
    ("   0: 00000000:0035 00000000:0000 0A" +:+ String "010" "   1: 00000000:0050 00000000:0000")
    tcpPorts = IndexOutOfRange 3 3 ∧
  checkPortsInUse "   0: 00000000:0035 00000000:0000 0A" tcpPorts =
    Normal (Some (Raw "the following required ports are in use: [53]")).
Proof. split; vm_compute; reflexivity. Qed.

End PortsFacts.

(** ** The start-up sequence *)

Module StartFacts.
Import OpenShift Traces.

Ltac unfold_M :=
  unfold copyConfig, getOpenShiftConfigFiles, masterHTTPClient, cleanupConfig,
    TempDir, CopyFromHost, RemoveAll, Stat, WriteFile, CopyMasterConfigToHost,
    Hostname, Run, StartContainer, GetContainerState, WaitForSuccessfulDial, Get,
    Fprintf, Sleep, call, emit, ask, val, ret, hang, mbind, M_bind, mret, M_ret in *.

Lemma pickTemp_Some fs prefix names d rest :
  pickTemp fs prefix names = (Some d, rest) →
  fs !! d = None ∧ ∃ n, d = "/tmp/" +:+ prefix +:+ n.
Proof.
  induction names as [|n names IH]; simpl; [done|].
  destruct (fs !! ("/tmp/" +:+ prefix +:+ n)) eqn:Hn; [done|].
  intros [= <- <-]. eauto.
Qed.

Lemma copyConfig_spec {R} hostDir (w : World) :
  ∃ w', env w' = env w ∧ responses w' = responses w ∧
    ((∃ e new, copyConfig (R:=R) hostDir w = (Val ("", Some e), w') ∧
               local w' = local w ∧ trace w' = trace w ++ new ∧
               Forall (staging (local w)) new) ∨
     (∃ dir t, copyConfig (R:=R) hostDir w = (Val (dir, None), w') ∧
               dir ≠ "" ∧ local w !! dir = None ∧ local w' = <[dir := t]> (local w) ∧
               trace w' = trace w ++ [EMkdirTemp dir; ECopyFromHost hostDir dir])).
Proof.
  unfold_M.
  destruct (pickTemp (local w) "openshift-config" (tmpNames w)) as [[dir|] rest] eqn:Hpick;
    simpl.
  - apply pickTemp_Some in Hpick as [Hfresh [n ->]].
    destruct (copies w) as [|[e|t] cs]; simpl.
    + eexists. split; [|split]; [| |left; eexists _, [_; _; _]; split; [done|]]; simpl; try done.
      split; [by rewrite delete_insert_eq, delete_id|].
      split; [by rewrite <- !app_assoc|]. by repeat constructor.
    + eexists. split; [|split]; [| |left; eexists _, [_; _; _]; split; [done|]]; simpl; try done.
      split; [by rewrite delete_insert_eq, delete_id|].
      split; [by rewrite <- !app_assoc|]. by repeat constructor.
    + eexists. split; [|split]; [| |right; eexists _, t; split; [done|]]; simpl; try done.
      split; [done|]. split; [done|].
      split; [by rewrite insert_insert_eq|]. by rewrite <- !app_assoc.
  - eexists. split; [|split]; [| |left; eexists _, []; split; [done|]]; simpl; try done.
    split; [done|]. split; [by rewrite app_nil_r|]. constructor.
Qed.

(** The readiness loop never gives up on its own: it hangs only on a
    script of transient responses. *)
Lemma readinessLoop_Hang url err script (w : World) :
  (readinessLoop url err script w).1 = Hang → Forall (λ r, isTransient r = true) script.
Proof.
  revert w. induction script as [|r script IH]; intros w; simpl; [done|].
  unfold_M. simpl. destruct r as [ierr|code body]; [done|]. simpl.
  destruct (code =? StatusOK); [done|].
  destruct ((code =? StatusServiceUnavailable) || (code =? StatusForbidden)) eqn:Ht; [|done].
  match goal with
  | |- context [readinessLoop url err script ?w1] =>
      specialize (IH w1); destruct (readinessLoop url err script w1) as [[| |] ?]
  end; try done.
  intros _. constructor; [done|]. by apply IH.
Qed.

Lemma readinessLoop_spec url err script (w : World) :
  ∃ r w' new, readinessLoop url err script w = (r, w') ∧
    env w' = env w ∧ local w' = local w ∧
    trace w' = trace w ++ new ∧ Forall (polling url) new ∧
    match r with
    | Ret (p, e) => p = "" ∧ ∃ msg cause, e = Some (NewError msg cause)
    | Hang => Forall (λ r, isTransient r = true) script
    | Val _ => True
    end.
Proof.
  revert w. induction script as [|r script IH]; intros w; simpl.
  { eexists _, _, []. rewrite app_nil_r. by repeat split. }
  unfold_M. simpl. destruct r as [ierr|code body]; simpl.
  { eexists _, _, [_]. repeat split; simpl; try done.
    all: solve [by eexists _, _ | repeat constructor; by left]. }
  destruct (code =? StatusOK).
  { eexists _, _, [_]. repeat split; simpl; try done.
    all: solve [repeat constructor; by left]. }
  destruct ((code =? StatusServiceUnavailable) || (code =? StatusForbidden)) eqn:Ht.
  2:{ eexists _, _, [_]. repeat split; simpl; try done.
      all: solve [by eexists _, _ | repeat constructor; by left]. }
  destruct (IH (addEvent (ESleep 500) (addEvent (EHttpGet url) (setResponses script w))))
    as (r & w' & new & Heq & Henv & Hloc & Htr & Hnew & Hr).
  rewrite Heq. exists r, w', (EHttpGet url :: ESleep 500 :: new).
  split; [done|]. split; [done|]. split; [done|].
  split; [rewrite Htr; simpl; by rewrite <- !app_assoc|].
  split; [constructor; [by left|]; constructor; [by right|done]|].
  destruct r as [?|[??]|]; try done. by constructor.
Qed.

(** Everything in terms of the initial world. *)
Ltac back_to_start :=
  repeat match goal with
         | He : env ?x = env ?y |- _ => try rewrite He in *; clear He
         end;
  repeat match goal with
         | Ht : trace ?x = _ |- context [trace ?x] => rewrite Ht
         end;
  rewrite <- ?app_assoc; simpl.

Lemma not_elem_of_Forall {A} (P : A → Prop) l x : Forall P l → ¬ P x → x ∉ l.
Proof. intros Hl Hx Hin. apply Hx. by eapply Forall_forall in Hl. Qed.

Lemma not_elem_of_cons_intro {A} (x y : A) l : x ≠ y → x ∉ l → x ∉ y :: l.
Proof. intros Hne Hl. by apply not_elem_of_cons. Qed.

Lemma not_elem_of_app_intro {A} (x : A) l1 l2 : x ∉ l1 → x ∉ l2 → x ∉ l1 ++ l2.
Proof. intros H1 H2. by apply not_elem_of_app. Qed.

Ltac not_in_trace :=
  solve [ repeat first
            [ apply not_elem_of_nil
            | apply not_elem_of_cons_intro; [first [discriminate | intros [=]; congruence]|]
            | apply not_elem_of_app_intro
            | eapply not_elem_of_Forall;
              [eassumption
              | simpl; first [tauto | congruence | unfold polling; intros [?|?]; done]] ] ].

Ltac find_event :=
  first [ apply list_elem_of_here
        | apply list_elem_of_further; find_event
        | apply elem_of_app; right; find_event ].

Ltac local_back :=
  repeat match goal with
         | Hl : local ?x = _ |- context [local ?x] => rewrite Hl
         | Hl : ∀ d, d ≠ ?c → local ?x !! d = _ |- context [local ?x !! ?d'] =>
             (rewrite (Hl d') by done)
         | |- context [delete ?a ?m !! ?b] => (rewrite (lookup_delete_ne m a b) by done)
         | |- context [<[?a:=?v]> ?m !! ?b] => (rewrite (lookup_insert_ne m a b v) by done)
         end.

Lemma adjacent_here {A} (a b : A) l : adjacent a b (a :: b :: l).
Proof. by exists [], l. Qed.

Lemma adjacent_cons {A} (a b x : A) l : adjacent a b l → adjacent a b (x :: l).
Proof. intros (pre & post & ->). by exists (x :: pre), post. Qed.

Lemma adjacent_app {A} (a b : A) l1 l2 : adjacent a b l2 → adjacent a b (l1 ++ l2).
Proof. intros (pre & post & ->). exists (l1 ++ pre), post. by rewrite app_assoc. Qed.

Ltac find_adjacent :=
  first [ apply adjacent_here
        | apply adjacent_cons; find_adjacent
        | apply adjacent_app; find_adjacent ].

Ltac use_env :=
  repeat match goal with
         | Hc : ?f (env ?w) = _ |- context [?f (env ?w)] => rewrite Hc
         end.

Section Codec.

Context {Rest : Type}.
Variable DecodeMasterConfig : string → error + MasterConfig Rest.
Variable WriteYAML : MasterConfig Rest → error + string.

Local Abbreviation updateConfig R :=
  (@OpenShift.updateConfig Rest DecodeMasterConfig WriteYAML R).
Local Abbreviation Start R := (@OpenShift.Start Rest DecodeMasterConfig WriteYAML R).
Local Abbreviation ReadMasterConfig R :=
  (@OpenShift.ReadMasterConfig Rest DecodeMasterConfig R).

Lemma updateConfig_spec {R} h configDir hostDir serverIP (w : World) :
  ∃ res w' new, updateConfig R h configDir hostDir serverIP w = (Val res, w') ∧
    env w' = env w ∧ responses w' = responses w ∧
    dom (local w') = dom (local w) ∧
    (∀ d, d ≠ configDir → local w' !! d = local w !! d) ∧
    trace w' = trace w ++ new ∧ Forall patching new.
Proof.
  unfold OpenShift.updateConfig, OpenShift.ReadMasterConfig, fileAt. unfold_M. simpl.
  destruct (local w !! configDir) as [t|] eqn:Hdir; simpl.
  2:{ eexists _, _, []. rewrite app_nil_r. by repeat split. }
  destruct (t !! masterConfigYAML) as [data|]; simpl.
  2:{ eexists _, _, []. rewrite app_nil_r. by repeat split. }
  destruct (DecodeMasterConfig data) as [e|cfg]; simpl.
  { eexists _, _, []. rewrite app_nil_r. by repeat split. }
  destruct (WriteYAML _) as [e|bytes]; simpl.
  { eexists _, _, []. rewrite app_nil_r. by repeat split. }
  rewrite Hdir. destruct (writeFile_err (env w)) as [e|]; simpl.
  { eexists _, _, [_]. repeat split; try done. by repeat constructor. }
  eexists _, _, [_; _]. repeat split; simpl; try done.
  - rewrite dom_insert_L. apply subseteq_union_1_L, singleton_subseteq_l.
    by apply elem_of_dom_2 in Hdir.
  - intros d Hd. by rewrite lookup_insert_ne.
  - by rewrite <- app_assoc.
  - by repeat constructor.
Qed.


Ltac step_in H :=
  first
    [ match type of H with
      | context [@copyConfig ?R ?d ?w] =>
          let w1 := fresh "w" in
          let Henv := fresh "Henv" in let Hresp := fresh "Hresp" in
          let Heq := fresh "Heq" in let Hloc := fresh "Hloc" in
          let Htr := fresh "Htr" in let Hst := fresh "Hst" in
          let Hne := fresh "Hne" in let Hfresh := fresh "Hfresh" in
          let e := fresh "e" in let new := fresh "new" in
          let dir := fresh "dir" in let t := fresh "t" in
          destruct (copyConfig_spec (R:=R) d w)
            as (w1 & Henv & Hresp & [(e & new & Heq & Hloc & Htr & Hst)
                                    |(dir & t & Heq & Hne & Hfresh & Hloc & Htr)]);
          rewrite Heq in H; clear Heq
      | context [@OpenShift.updateConfig _ _ _ ?R ?h ?c ?d ?ip ?w] =>
          let w1 := fresh "w" in let res := fresh "res" in
          let Henv := fresh "Henv" in let Hresp := fresh "Hresp" in
          let Heq := fresh "Heq" in let Hdom := fresh "Hdom" in
          let Hloc := fresh "Hloc" in
          let Htr := fresh "Htr" in let Hst := fresh "Hst" in
          let new := fresh "new" in
          destruct (updateConfig_spec (R:=R) h c d ip w)
            as (res & w1 & new & Heq & Henv & Hresp & Hdom & Hloc & Htr & Hst);
          rewrite Heq in H; clear Heq
      | context [readinessLoop ?url ?err ?script ?w] =>
          let w1 := fresh "w" in let r := fresh "r" in
          let Henv := fresh "Henv" in
          let Heq := fresh "Heq" in
          let Hloc := fresh "Hloc" in
          let Htr := fresh "Htr" in let Hst := fresh "Hst" in
          let Hr := fresh "Hr" in
          let new := fresh "new" in
          destruct (readinessLoop_spec url err script w)
            as (r & w1 & new & Heq & Henv & Hloc & Htr & Hst & Hr);
          rewrite Heq in H; clear Heq
      end
    | match type of H with
      | context [match ?x with _ => _ end] =>
          lazymatch x with
          | context [match _ with _ => _ end] => fail
          | _ => destruct x eqn:?
          end
      end ];
  simpl in H.

Ltac unfold_Start H :=
  unfold OpenShift.Start, getOpenShiftConfigFiles, masterHTTPClient, cleanupConfig,
    RemoveAll, Stat, Hostname, Run, StartContainer, GetContainerState,
    WaitForSuccessfulDial, Fprintf, Sleep, emit, ask, val, ret, hang, call,
    mbind, M_bind, mret, M_ret in H;
  simpl in H.

Ltac exec_Start H := unfold_Start H; repeat step_in H; simpl in *.

(** X14.  Every exit of [Start] returns either a path that is not empty
    together with a nil error, or the empty path together with an error
    that is not nil. *)
Lemma Start_result_shape {R} h opt (w : World) p e w' :
  Start R h opt w = (Val (p, e), w') →
  (p ≠ "" ∧ e = None) ∨ (p = "" ∧ e ≠ None).
Proof.
  intros H. exec_Start H.
  all: try discriminate H.
  all: try (injection H as <- <- <-; by right).
  all: try (injection H as <- <- <-; by left).
  all: match goal with
       | Hr : let (_, _) := ?r0 in _ |- _ =>
           destruct r0; destruct Hr as (-> & ? & ? & ->); injection H as <- <- <-; by right
       end.
Qed.

(** C6.  With [UseExistingConfig] set: when the staging of the host
    configuration succeeds and the staged copy holds
    master/master-config.yaml, [Start] never runs the generation command;
    when the staging or the presence check fails, [Start] goes on and
    runs the generation command. *)
Theorem Start_existing_config {R} h opt (w : World) dir err w1 r w' new :
  UseExistingConfig opt = true →
  copyConfig (R:=string * option error) (HostConfigDir opt) w = (Val (dir, err), w1) →
  Start R h opt w = (r, w') → trace w' = trace w ++ new →
  (err = None → is_Some (fileAt (local w1) (dir, masterConfigYAML)) →
   ∀ spec, ERun spec ∉ new) ∧
  (err ≠ None ∨ fileAt (local w1) (dir, masterConfigYAML) = None →
   ∃ spec, ERun spec ∈ new ∧ rCommand spec = createConfigCmd h opt).
Proof.
  intros Hopt Hcopy H Hnew.
  destruct (copyConfig_spec (R:=string * option error) (HostConfigDir opt) w)
    as (w1' & Henv1 & Hresp1 & [(e1 & new1 & Heq & Hloc1 & Htr1 & Hst1)
                               |(dir1 & t1 & Heq & Hne1 & Hfresh1 & Hloc1 & Htr1)]);
    rewrite Hcopy in Heq; injection Heq as -> -> ->.
  - split; [done|]. intros _.
    unfold OpenShift.Start in H. rewrite Hopt in H.
    destruct (UseSharedVolume opt); unfold_Start H; rewrite Hcopy in H; simpl in H.
    all: repeat step_in H; simpl in *.
    all: injection H as <- <-; simpl in Hnew; revert Hnew; back_to_start;
      intros Hnew%app_inv_head; subst new; eexists; (split; [find_event|reflexivity]).
  - unfold OpenShift.Start in H. rewrite Hopt in H.
    destruct (UseSharedVolume opt); unfold_Start H; rewrite Hcopy in H; simpl in H.
    all: destruct (fileAt (local w1') (dir1, masterConfigYAML)) as [data|] eqn:Hfile;
      simpl in H.
    all: (split; [intros _ Hsome spec|intros [?|?]; try done]);
      try (by destruct Hsome).
    all: repeat step_in H; simpl in *.
    all: injection H as <- <-; simpl in Hnew; revert Hnew; back_to_start;
      intros Hnew%app_inv_head; subst new.
    all: try not_in_trace.
    all: eexists; (split; [find_event|reflexivity]).
Qed.


(** C10.  With [UseExistingConfig] set, a probe whose staging succeeds
    but whose copy lacks master/master-config.yaml makes [Start] generate
    a configuration; the directory of the probe is still there on every
    exit, no [RemoveAll] names it, no exit returns it, and a successful
    exit returns a second directory that did not exist after the probe. *)
Theorem Start_probe_directory_abandoned {R} h opt (w : World) dir1 w1 r w' new :
  UseExistingConfig opt = true →
  copyConfig (R:=string * option error) (HostConfigDir opt) w = (Val (dir1, None), w1) →
  fileAt (local w1) (dir1, masterConfigYAML) = None →
  Start R h opt w = (r, w') → trace w' = trace w ++ new →
  (∃ spec, ERun spec ∈ new ∧ rCommand spec = createConfigCmd h opt) ∧
  is_Some (local w1 !! dir1) ∧
  local w' !! dir1 = local w1 !! dir1 ∧
  (ERemoveAll dir1 ∉ new) ∧
  (∀ p e, r = Val (p, e) → p ≠ dir1) ∧
  (∀ p, r = Val (p, None) → local w1 !! p = None ∧ is_Some (local w' !! p)).
Proof.
  intros Hopt Hcopy Hfile H Hnew.
  destruct (copyConfig_spec (R:=string * option error) (HostConfigDir opt) w)
    as (w1' & Henv1 & Hresp1 & [(e1 & new1 & Heq & Hloc1 & Htr1 & Hst1)
                               |(d1 & t1 & Heq & Hne1 & Hfresh1 & Hloc1 & Htr1)]);
    rewrite Hcopy in Heq; [done|]. injection Heq as <- <-.
  assert (local w1 !! dir1 = Some t1) as Hthere by (rewrite Hloc1; apply lookup_insert_eq).
  unfold OpenShift.Start in H. rewrite Hopt in H.
  destruct (UseSharedVolume opt); unfold_Start H; rewrite Hcopy in H; simpl in H;
    rewrite Hfile in H; simpl in H.
  all: repeat step_in H; simpl in *.
  all: injection H as <- <-; simpl in Hnew; revert Hnew; back_to_start;
    intros Hnew%app_inv_head; subst new.
  all: try match goal with
           | Hf : local ?x !! ?d2 = None, Ht : local ?x !! ?d = Some _ |- _ =>
               assert (d2 ≠ d) by (intros ->; congruence)
           end.
  all: split; [eexists; (split; [find_event|reflexivity])|].
  all: split; [by eexists|].
  all: split; [simpl; local_back; try done|].
  all: split; [not_in_trace|].
  all: split; [intros p' e' ?; simplify_eq; simpl in *;
               try match goal with Hr : _ ∧ _ |- _ => destruct Hr as [-> _] end;
               congruence|].
  all: intros p' ?; simplify_eq; simpl in *;
    try match goal with Hr : _ ∧ (∃ _ _, None = Some _) |- _ =>
          by destruct Hr as (_ & ? & ? & ?) end.
  all: split; [done|].
  all: apply elem_of_dom; simpl;
    repeat match goal with
           | Hl : local ?x = _ |- context [local ?x] => rewrite Hl
           | Hd : dom (local ?x) = _ |- context [dom (local ?x)] => rewrite Hd
           end.
  all: rewrite dom_insert_L; apply elem_of_union_l, elem_of_singleton; done.
Qed.


(** C8.  Once the state of the container is queried, the query comes
    directly after the sleep of [initialStatusCheckWait]; an error of the
    query gives the state-query error that wraps it, a container that is
    not running gives [ErrOpenShiftFailedToStart], and a dial on the
    secure port that runs out of retries gives
    [ErrTimedOutWaitingForStart], which is another error. *)
Theorem Start_post_launch_errors {R} h opt (w : World) r w' new :
  Start R h opt w = (r, w') → trace w' = trace w ++ new →
  EGetContainerState (containerName h) ∈ new →
  adjacent (ESleep initialStatusCheckWait) (EGetContainerState (containerName h)) new ∧
  match containerState_result (env w) with
  | inl cause =>
      r = Val ("", Some (NewError ("cannot get state of OpenShift container "
                                     +:+ containerName h) (Some cause)))
  | inr false => r = Val ("", Some (ErrOpenShiftFailedToStart (containerName h)))
  | inr true =>
      EDial (ServerIP opt +:+ ":8443") serverUpTimeout ∈ new ∧
      ∀ cause, dial_err (env w) = Some cause →
               r = Val ("", Some (ErrTimedOutWaitingForStart (containerName h)))
  end ∧
  ErrTimedOutWaitingForStart (containerName h) ≠ ErrOpenShiftFailedToStart (containerName h).
Proof.
  intros H Hnew Hin. exec_Start H.
  all: injection H as <- <-; simpl in Hnew; revert Hnew; back_to_start;
    intros Hnew%app_inv_head; subst new.
  all: try (exfalso; revert Hin;
            match goal with |- ?P → False => change (¬ P) end; not_in_trace).
  all: split; [find_adjacent|]; (split; [|done]).
  all: use_env; try done.
  all: match goal with |- if ?b then _ else _ => destruct b; simpl in *; try done end.
  all: split; [find_event|intros cause Hd; first [done | congruence]].
Qed.


(** C7.  Given a codec that decodes what it encodes: after a successful
    [updateConfig] the master configuration file of the staged directory
    decodes to the configuration read before, with the routing subdomain
    set to the routing suffix of the helper when there is one and to
    "<serverIP>.xip.io" otherwise, and every other field as it was. *)
Theorem updateConfig_roundtrip {R} h configDir hostDir serverIP (w w' : World) :
  (∀ cfg bytes, WriteYAML cfg = inr bytes → DecodeMasterConfig bytes = inr cfg) →
  updateConfig R h configDir hostDir serverIP w = (Val None, w') →
  ∃ cfg cfg',
    (ReadMasterConfig R (configDir, masterConfigYAML) w).1 = Val (inr cfg) ∧
    (ReadMasterConfig R (configDir, masterConfigYAML) w').1 = Val (inr cfg') ∧
    otherFields cfg' = otherFields cfg ∧
    (routingSuffix h ≠ "" → RoutingConfig_Subdomain cfg' = routingSuffix h) ∧
    (routingSuffix h = "" → RoutingConfig_Subdomain cfg' = serverIP +:+ ".xip.io").
Proof.
  intros Hround. unfold OpenShift.updateConfig, OpenShift.ReadMasterConfig, fileAt.
  unfold_M. simpl.
  destruct (local w !! configDir) as [t|] eqn:Hdir; simpl; [|done].
  destruct (t !! masterConfigYAML) as [data|]; simpl; [|done].
  destruct (DecodeMasterConfig data) as [e|cfg]; simpl; [done|].
  destruct (WriteYAML _) as [e|bytes] eqn:Hwrite; simpl; [done|].
  rewrite Hdir. destruct (writeFile_err (env w)) as [e|]; simpl; [done|].
  destruct (copyMasterConfigToHost_err (env w)) as [e|]; simpl; [done|].
  intros [= <-]. simpl. rewrite lookup_insert_eq. simpl. rewrite lookup_insert_eq.
  rewrite (Hround _ _ Hwrite). eexists _, _. split; [done|]. split; [done|].
  destruct (routingSuffix h) as [|c s]; simpl; by repeat split.
Qed.

(** X23.  [Start] returns whenever the readiness URL is scripted to give
    at least one answer that is neither a 503 nor a 403. *)
Lemma Start_returns {R} h opt (w : World) :
  Exists (λ r, isTransient r = false) (responses w) →
  ∃ p e w', Start R h opt w = (Val (p, e), w').
Proof.
  intros Hex. destruct (Start R h opt w) as [r w'] eqn:H. exec_Start H.
  all: injection H as <- <-; try (by eexists _, _, _).
  all: try match goal with r0 : (string * option error)%type |- _ =>
             destruct r0; by eexists _, _, _ end.
  all: exfalso; revert Hr;
    repeat match goal with
           | Hs : responses ?x = _ |- context [responses ?x] => rewrite Hs
           end;
    intros Hr; apply Exists_exists in Hex as (x & Hx & Hnt);
    eapply Forall_forall in Hr; [|exact Hx]; congruence.
Qed.


(** A failure exit after the launch leaves a directory behind that the
    attempt itself has created. *)
Lemma Start_FailedToStart_leaves_directory {R} h opt (w : World) name w' :
  Start R h opt w = (Val ("", Some (ErrOpenShiftFailedToStart name)), w') →
  ∃ dir, local w !! dir = None ∧ is_Some (local w' !! dir).
Proof.
  intros H. exec_Start H.
  all: try discriminate H.
  all: try match goal with
           | Hr : let (_, _) := ?r0 in _ |- _ =>
               destruct r0; destruct Hr as (-> & ? & ? & ->); discriminate H
           end.
  all: injection H as _ <-.
  all: match goal with
       | Hf : local ?x !! ?d = None |- _ =>
           exists d; split;
           [ revert Hf;
             repeat match goal with
                    | Hl : local ?y = _ |- context [local ?y] => rewrite Hl
                    end;
             rewrite ?lookup_insert_None; tauto
           | apply elem_of_dom; simpl;
             repeat match goal with
                    | Hl : local ?y = _ |- context [local ?y] => rewrite Hl
                    | Hd : dom (local ?y) = _ |- context [dom (local ?y)] => rewrite Hd
                    end;
             rewrite ?dom_insert_L, ?elem_of_union, ?elem_of_singleton; tauto ]
       end.
Qed.

End Codec.

(** *** The readiness loop, one iteration at a time *)

Lemma readinessLoop_transient url err r rest (w : World) :
  isTransient r = true →
  readinessLoop url err (r :: rest) w =
    readinessLoop url err rest
      (addEvent (ESleep 500) (addEvent (EHttpGet url) (setResponses rest w))).
Proof.
  destruct r as [ierr|code body]; simpl; [done|]. intros Ht. unfold_M. simpl.
  rewrite Ht. destruct (Z.eqb_spec code StatusOK) as [->|_]; [done|]. done.
Qed.

Lemma readinessLoop_ready url err body rest (w : World) :
  readinessLoop url err (Response StatusOK body :: rest) w =
    (Val tt, addEvent (EHttpGet url) (setResponses rest w)).
Proof. done. Qed.

(** A transport error ends the loop at once; the error that is returned
    carries [err], the variable of [Start], and not [ierr]. *)
Lemma readinessLoop_GetError url err ierr rest (w : World) :
  readinessLoop url err (GetError ierr :: rest) w =
    (Ret ("", Some (NewError ("cannot access master readiness URL " +:+ url) err)),
     addEvent (EHttpGet url) (setResponses rest w)).
Proof. done. Qed.

(** Any status but 200, 503 and 403 ends the loop at once, with the body
    (as far as it could be read) in the message. *)
Lemma readinessLoop_other_status url err code body rest (w : World) :
  code ≠ StatusOK → code ≠ StatusServiceUnavailable → code ≠ StatusForbidden →
  readinessLoop url err (Response code body :: rest) w =
    (Ret ("", Some (NewError ("server is not ready. Response (" +:+ pretty code +:+ "): "
                                +:+ match body with inr b => b | inl _ => "" end) None)),
     addEvent (EHttpGet url) (setResponses rest w)).
Proof.
  intros H1 H2 H3. simpl. unfold_M. simpl.
  destruct (Z.eqb_spec code StatusOK); [done|].
  destruct (Z.eqb_spec code StatusServiceUnavailable); [done|].
  destruct (Z.eqb_spec code StatusForbidden); [done|]. done.
Qed.

Lemma requests_app l1 l2 : requests (l1 ++ l2) = (requests l1 + requests l2)%nat.
Proof.
  induction l1 as [|e l1 IH]; simpl; [done|]. destruct e; simpl; by rewrite ?IH.
Qed.

(** C3.  On the responses 503, 503, 200 the readiness loop makes exactly
    three requests, sleeps 500 ms after each of the first two and ends
    with success; on 403, 500 it makes exactly two requests and returns
    the readiness error whose message holds the body of the second
    response. *)
Theorem readiness_canned_sequences url err (w : World) b1 b2 b3 c1 body :
  (readinessLoop url err [Response 503 b1; Response 503 b2; Response 200 b3] w).1 = Val tt ∧
  trace (readinessLoop url err [Response 503 b1; Response 503 b2; Response 200 b3] w).2 =
    trace w ++ [EHttpGet url; ESleep 500; EHttpGet url; ESleep 500; EHttpGet url] ∧
  requests (trace (readinessLoop url err
                     [Response 503 b1; Response 503 b2; Response 200 b3] w).2) =
    (requests (trace w) + 3)%nat ∧
  (readinessLoop url err [Response 403 c1; Response 500 (inr body)] w).1 =
    Ret ("", Some (NewError ("server is not ready. Response (500): " +:+ body) None)) ∧
  trace (readinessLoop url err [Response 403 c1; Response 500 (inr body)] w).2 =
    trace w ++ [EHttpGet url; ESleep 500; EHttpGet url] ∧
  requests (trace (readinessLoop url err [Response 403 c1; Response 500 (inr body)] w).2) =
    (requests (trace w) + 2)%nat.
Proof.
  rewrite (readinessLoop_transient url err (Response 503 b1)) by done.
  rewrite (readinessLoop_transient url err (Response 503 b2)) by done.
  rewrite (readinessLoop_transient url err (Response 403 c1)) by done.
  rewrite readinessLoop_ready, (readinessLoop_other_status url err 500) by done.
  simpl. rewrite <- !app_assoc, !requests_app. simpl. by repeat split.
Qed.

(** *** The codec of the scenarios *)

Import GoStrings Scenario.

Lemma cutLine_append sub more :
  Contains sub "010" = false → cutLine (sub +:+ nl +:+ more) = Some (sub, more).
Proof.
  induction sub as [|c sub IH]; simpl; [done|].
  destruct (Ascii.eqb c "010"); simpl; [done|]. intros H. by rewrite IH.
Qed.

Lemma lines_roundtrip cfg bytes : encodeLines cfg = inr bytes → decodeLines bytes = inr cfg.
Proof.
  unfold encodeLines, decodeLines. destruct cfg as [sub more]; simpl.
  destruct (Contains sub "010") eqn:Hc; [done|]. intros [= <-].
  by rewrite cutLine_append.
Qed.

(** *** The attempts of the scenarios *)

(** The first end-to-end scenario of the spec: nothing fails, the first
    readiness request is answered with 200. *)
Lemma Start_fresh_succeeds :
  (@Start string decodeLines encodeLines unit origin fresh
     (world (healthy true) [inr generated] [Response 200 (inr "ok")])).1 =
  Val (staged, None).
Proof. vm_compute. reflexivity. Qed.

(** C1, as the code has it.  The claim says that every failure exit after
    the staging removes the staged directory.  In the second end-to-end
    scenario of the spec (the container is not running after the launch)
    [Start] returns [ErrOpenShiftFailedToStart], the directory it has
    staged is still there, and nothing was removed at all. *)
Theorem Start_not_running_keeps_staged_directory :
  let attempt := @Start string decodeLines encodeLines unit origin fresh
                   (world (healthy false) [inr generated] [Response 200 (inr "ok")]) in
  attempt.1 = Val ("", Some (ErrOpenShiftFailedToStart "origin")) ∧
  is_Some (local attempt.2 !! staged) ∧
  removals (trace attempt.2) = [] ∧
  EMkdirTemp staged ∈ trace attempt.2.
Proof.
  split; [vm_compute; reflexivity|]. split; [vm_compute; by eexists|].
  split; [vm_compute; reflexivity|]. vm_compute. find_event.
Qed.

(** C2, as the code has it.  The claim says that the error returned on a
    transport error of the readiness request carries that transport error
    as its cause.  The code passes [err], which is nil at that point, to
    [WithCause] instead of [ierr]: the error returned has no cause. *)
Theorem Start_transport_error_drops_cause :
  (@Start string decodeLines encodeLines unit origin fresh
     (world (healthy true) [inr generated]
        [GetError (Raw "Get https://10.0.0.5:8443/healthz/ready: EOF")])).1 =
  Val ("", Some (NewError
                   "cannot access master readiness URL https://10.0.0.5:8443/healthz/ready"
                   None)).
Proof. vm_compute. reflexivity. Qed.


(** The readiness scenario of the spec inside a whole attempt: 503, 503,
    200 makes three requests and the attempt succeeds. *)
Lemma Start_ready_after_three_requests :
  let attempt := @Start string decodeLines encodeLines unit origin fresh
                   (world (healthy true) [inr generated]
                      [Response 503 (inr ""); Response 503 (inr ""); Response 200 (inr "ok")]) in
  attempt.1 = Val (staged, None) ∧ requests (trace attempt.2) = 3%nat.
Proof. split; vm_compute; reflexivity. Qed.

(** C9.  Not every failing exit of [Start] returns a classified error.
    When the transport of the readiness client cannot be built from the
    staged CA certificate, [Start] returns the empty path together with
    the error of [TransportFor] as it came, which is not classified; the
    failure of the state query two steps earlier comes back wrapped in
    the message of its stage, as at every other failing exit. *)
Theorem Start_client_error_unclassified :
  (Attempts.attempt fresh
     (world Attempts.badCA [inr generated] [Response 200 (inr "ok")])).1 =
    Val ("", Some (Raw "x509: malformed certificate")) ∧
  Attempts.classified (Raw "x509: malformed certificate") = false ∧
  (Attempts.attempt fresh
     (world Attempts.stateUnknown [inr generated] [Response 200 (inr "ok")])).1 =
    Val ("", Some (NewError "cannot get state of OpenShift container origin"
                     (Some (Raw "no such container")))) ∧
  Attempts.classified
    (NewError "cannot get state of OpenShift container origin"
       (Some (Raw "no such container"))) = true.
Proof. repeat split; vm_compute; reflexivity. Qed.

(** *** The theorems above at concrete attempts *)

Lemma Start_result_shape_witness :
  (staged ≠ "" ∧ @None error = None) ∨ (staged = "" ∧ @None error ≠ None).
Proof.
  apply (@Start_result_shape string decodeLines encodeLines unit origin fresh
           (world (healthy true) [inr generated] [Response 200 (inr "ok")])
           staged None
           (@Start string decodeLines encodeLines unit origin fresh
              (world (healthy true) [inr generated] [Response 200 (inr "ok")])).2).
  vm_compute. reflexivity.
Defined.

Lemma Start_existing_config_witness :
  Forall (λ e, ∀ spec, e ≠ ERun spec)
    (trace (@Start string decodeLines encodeLines unit origin reuse
              (world (healthy true) [inr generated] [Response 200 (inr "ok")])).2) ∧
  ∃ spec, ERun spec ∈
            trace (@Start string decodeLines encodeLines unit origin reuse
                     (world (healthy true) [inr incomplete; inr generated]
                        [Response 200 (inr "ok")])).2 ∧
          rCommand spec = createConfigCmd origin reuse.
Proof.
  split.
  - apply Forall_forall. intros e He spec ->. revert He.
    refine (proj1 (@Start_existing_config string decodeLines encodeLines unit origin reuse
                     (world (healthy true) [inr generated] [Response 200 (inr "ok")])
                     staged None
                     (@copyConfig (string * option error)
                        "/var/lib/origin/openshift.local.config"
                        (world (healthy true) [inr generated] [Response 200 (inr "ok")])).2
                     _ _ _ eq_refl _ _ _) eq_refl _ spec).
    + vm_compute. reflexivity.
    + vm_compute. reflexivity.
    + reflexivity.
    + vm_compute. by eexists.
  - refine (proj2 (@Start_existing_config string decodeLines encodeLines unit origin reuse
                     (world (healthy true) [inr incomplete; inr generated]
                        [Response 200 (inr "ok")])
                     staged None
                     (@copyConfig (string * option error)
                        "/var/lib/origin/openshift.local.config"
                        (world (healthy true) [inr incomplete; inr generated]
                           [Response 200 (inr "ok")])).2
                     _ _ _ eq_refl _ _ _) _).
    + vm_compute. reflexivity.
    + vm_compute. reflexivity.
    + reflexivity.
    + right. vm_compute. reflexivity.
Defined.

Lemma Start_probe_directory_abandoned_witness :
  is_Some (local (@Start string decodeLines encodeLines unit origin reuse
                    (world (healthy true) [inr incomplete; inr generated]
                       [Response 200 (inr "ok")])).2 !! staged) ∧
  staged2 ≠ staged.
Proof.
  destruct (@Start_probe_directory_abandoned string decodeLines encodeLines unit origin reuse
              (world (healthy true) [inr incomplete; inr generated] [Response 200 (inr "ok")])
              staged
              (@copyConfig (string * option error)
                 "/var/lib/origin/openshift.local.config"
                 (world (healthy true) [inr incomplete; inr generated]
                    [Response 200 (inr "ok")])).2
              (Val (staged2, None))
              (@Start string decodeLines encodeLines unit origin reuse
                 (world (healthy true) [inr incomplete; inr generated]
                    [Response 200 (inr "ok")])).2
              (trace (@Start string decodeLines encodeLines unit origin reuse
                        (world (healthy true) [inr incomplete; inr generated]
                           [Response 200 (inr "ok")])).2)
              eq_refl)
    as (_ & Hsome & Hsame & _ & Hret & _).
  - vm_compute. reflexivity.
  - vm_compute. reflexivity.
  - vm_compute. reflexivity.
  - reflexivity.
  - split; [rewrite Hsame; exact Hsome | by apply (Hret staged2 None)].
Defined.

Lemma Start_post_launch_errors_witness :
  (@Start string decodeLines encodeLines unit origin fresh
     (world unreachable [inr generated] [Response 200 (inr "ok")])).1 =
  Val ("", Some (ErrTimedOutWaitingForStart "origin")).
Proof.
  destruct (@Start_post_launch_errors string decodeLines encodeLines unit origin fresh
              (world unreachable [inr generated] [Response 200 (inr "ok")])
              (@Start string decodeLines encodeLines unit origin fresh
                 (world unreachable [inr generated] [Response 200 (inr "ok")])).1
              (@Start string decodeLines encodeLines unit origin fresh
                 (world unreachable [inr generated] [Response 200 (inr "ok")])).2
              (trace (@Start string decodeLines encodeLines unit origin fresh
                        (world unreachable [inr generated] [Response 200 (inr "ok")])).2))
    as (_ & [_ Hdial] & _).
  - vm_compute. reflexivity.
  - reflexivity.
  - vm_compute. find_event.
  - exact (Hdial _ eq_refl).
Defined.

Lemma updateConfig_roundtrip_witness :
  ∃ cfg',
    (@ReadMasterConfig string decodeLines unit (staged, masterConfigYAML)
       (@updateConfig string decodeLines encodeLines unit origin staged
          "/var/lib/origin/openshift.local.config" "10.0.0.5"
          (@copyConfig unit "/var/lib/origin/openshift.local.config"
             (world (healthy true) [inr generated] [])).2).2).1 = Val (inr cfg') ∧
    RoutingConfig_Subdomain cfg' = "10.0.0.5.xip.io" ∧
    otherFields cfg' = "servingInfo: {}".
Proof.
  destruct (@updateConfig_roundtrip string decodeLines encodeLines unit origin staged
              "/var/lib/origin/openshift.local.config" "10.0.0.5"
              (@copyConfig unit "/var/lib/origin/openshift.local.config"
                 (world (healthy true) [inr generated] [])).2
              _ lines_roundtrip (surjective_pairing _))
    as (cfg & cfg' & Hold & Hnew & Hrest & _ & Hsub).
  exists cfg'. split; [exact Hnew|]. split; [by apply Hsub|].
  rewrite Hrest. vm_compute in Hold. by injection Hold as <-.
Defined.

End StartFacts.


(** ** More on the port check *)

Module PortsMore.

Import GoStrings GoStrconv Ports Probes PortsFacts.

Lemma truncated_spec line :
  truncated line = true ↔
  (2 ≤ length (Fields line) < 4)%nat ∧
  ∃ p0 p1, Fields line !! 0%nat = Some p0 ∧ Contains p0 ":" = true ∧
           Fields line !! 1%nat = Some p1 ∧ Contains p1 ":" = true.
Proof.
  unfold truncated.
  destruct (Fields line) as [|p0 [|p1 parts]]; simpl.
  - split; [done|]. intros [? _]. lia.
  - split; [done|]. intros [? _]. lia.
  - rewrite ?andb_true_iff, ?Nat.ltb_lt, ?Nat.leb_le. split.
    + intros (Hlen & H0 & H1). split; [lia|]. by exists p0, p1.
    + intros [Hlen (q0 & q1 & [= <-] & H0 & [= <-] & H1)].
      repeat split; (done || lia).
Qed.

(** The only fault of one round of the loop is the read of [parts[3]], and
    it happens exactly on a truncated line. *)
Lemma usedPortsLine_fault_iff ports line i n :
  usedPortsLine ports line = IndexOutOfRange i n ↔
  truncated line = true ∧ i = 3%nat ∧ n = length (Fields line).
Proof.
  split.
  - intros H. destruct (truncated line) eqn:Ht.
    + apply truncated_spec in Ht as [Hlen (p0 & p1 & H0 & Hc0 & H1 & Hc1)].
      rewrite (usedPortsLine_short_line ports line p0 p1) in H by (done || lia).
      by injection H as <- <-.
    + exfalso. revert H. unfold usedPortsLine, index.
      destruct (Nat.ltb_spec (length (Fields line)) 2) as [|Hlen]; [done|].
      destruct (Fields line !! 0%nat) as [p0|] eqn:H0; simpl;
        [|apply lookup_ge_None in H0; lia].
      destruct (Contains p0 ":") eqn:Hc0; simpl; [|done].
      destruct (Fields line !! 1%nat) as [p1|] eqn:H1; simpl;
        [|apply lookup_ge_None in H1; lia].
      destruct (Nat.ltb_spec (length (Split p1 ":")) 2) as [|Hlen1]; [done|].
      destruct (Fields line !! 3%nat) as [state|] eqn:H3; simpl.
      * destruct (String.eqb state "0A"); simpl; [|done].
        destruct (Split p1 ":" !! 1%nat) eqn:Hh; simpl.
        -- by destruct (ParseInt _ 16 0).
        -- apply lookup_ge_None in Hh. lia.
      * apply lookup_ge_None in H3.
        assert (truncated line = true) as Ht'; [|congruence].
        apply truncated_spec. split; [lia|]. exists p0, p1.
        repeat split; try done. by apply Split_length_Contains.
  - intros (Ht & -> & ->).
    apply truncated_spec in Ht as [Hlen (p0 & p1 & H0 & Hc0 & H1 & Hc1)].
    apply (usedPortsLine_short_line ports line p0 p1); (done || lia).
Qed.

Lemma usedPortsLines_fault_iff lines ports :
  (∃ i n, usedPortsLines ports lines = IndexOutOfRange i n) ↔
  Exists (λ line, truncated line = true) lines.
Proof.
  revert ports. induction lines as [|line lines IH]; intros ports; simpl.
  - split; [by intros (? & ? & ?)|]. intros H. by apply Exists_nil in H.
  - rewrite Exists_cons. destruct (usedPortsLine ports line) as [ports'|i n] eqn:Hl; simpl.
    + rewrite IH. split; [by right|]. intros [Ht|H]; [|done].
      exfalso. assert (usedPortsLine ports line = IndexOutOfRange 3 (length (Fields line)))
        as Hf by by apply usedPortsLine_fault_iff. congruence.
    + apply usedPortsLine_fault_iff in Hl as (Ht & _ & _).
      split; [by left|]. by eexists _, _.
Qed.

(** X1.  [getUsedPorts] panics exactly when its input has a truncated
    line: two or three fields, a colon in each of the first two.  On every
    other input it returns a set of ports. *)
Theorem getUsedPorts_faults_iff data :
  (∃ i n, getUsedPorts data = IndexOutOfRange i n) ↔
  Exists (λ line, truncated line = true) (Split data "010").
Proof. apply usedPortsLines_fault_iff. Qed.

(** X2.  When [getUsedPorts] panics, it is always on the read of
    [parts[3]], in a slice of two or three fields. *)
Theorem getUsedPorts_fault_is_fourth_field data i n :
  getUsedPorts data = IndexOutOfRange i n → i = 3%nat ∧ (2 ≤ n < 4)%nat.
Proof.
  unfold getUsedPorts. generalize (∅ : gset Z).
  induction (Split data "010") as [|line lines IH]; intros ports; simpl; [done|].
  destruct (usedPortsLine ports line) as [ports'|i' n'] eqn:Hl; simpl; [apply IH|].
  intros [= -> ->]. apply usedPortsLine_fault_iff in Hl as (Ht & -> & ->).
  apply truncated_spec in Ht as [Hlen _]. split; [done|lia].
Qed.

Lemma usedPortsLine_adds_full ports line ports' port :
  usedPortsLine ports line = Normal ports' → port ∈ ports' → port ∉ ports →
  ∃ p0 p1 hex, Fields line !! 0%nat = Some p0 ∧ Contains p0 ":" = true ∧
    Fields line !! 1%nat = Some p1 ∧ Split p1 ":" !! 1%nat = Some hex ∧
    Fields line !! 3%nat = Some "0A" ∧ ParseInt hex 16 0 = Some port.
Proof.
  assert (∀ P : Prop, Normal ports = Normal ports' → port ∈ ports' → port ∉ ports → P)
    as Hsame by (intros P [= <-] ??; done).
  unfold usedPortsLine, index.
  destruct (length (Fields line) <? 2)%nat; [apply Hsame|].
  destruct (Fields line !! 0%nat) as [p0|]; simpl; [|done].
  destruct (Contains p0 ":") eqn:Hc; simpl; [|apply Hsame].
  destruct (Fields line !! 1%nat) as [p1|]; simpl; [|done].
  destruct (length (Split p1 ":") <? 2)%nat; [apply Hsame|].
  destruct (Fields line !! 3%nat) as [state|]; simpl; [|done].
  destruct (String.eqb_spec state "0A") as [->|]; simpl; [|apply Hsame].
  destruct (Split p1 ":" !! 1%nat) as [hex|] eqn:Hh; simpl; [|done].
  destruct (ParseInt hex 16 0) as [q|] eqn:Hq; [|apply Hsame].
  intros [= <-] Hin Hnin.
  apply elem_of_union in Hin as [Hin%elem_of_singleton|]; [subst q|done].
  by exists p0, p1, hex.
Qed.

Lemma usedPortsLines_contents lines ports used port :
  usedPortsLines ports lines = Normal used →
  port ∈ used ↔
  port ∈ ports ∨
  ∃ line p0 p1 hex, line ∈ lines ∧
    Fields line !! 0%nat = Some p0 ∧ Contains p0 ":" = true ∧
    Fields line !! 1%nat = Some p1 ∧ Split p1 ":" !! 1%nat = Some hex ∧
    Fields line !! 3%nat = Some "0A" ∧ ParseInt hex 16 0 = Some port.
Proof.
  intros Hrun. split.
  - revert ports Hrun. induction lines as [|l lines IH]; simpl; intros ports.
    + intros [= <-]. by left.
    + destruct (usedPortsLine ports l) as [ports'|] eqn:Hl; simpl; [|done].
      intros Hrun Hin. destruct (IH _ Hrun Hin) as [Hin'|(line & p0 & p1 & hex & ? & ?)].
      * destruct (decide (port ∈ ports)) as [|Hnin]; [by left|]. right.
        destruct (usedPortsLine_adds_full _ _ _ _ Hl Hin' Hnin) as (p0 & p1 & hex & ?).
        exists l, p0, p1, hex. split; [left|done].
      * right. exists line, p0, p1, hex. split; [by right|done].
  - intros [Hin|(line & p0 & p1 & hex & Hin & H0 & Hc & H1 & Hh & H3 & Hp)].
    + apply usedPortsLines_mono in Hrun. set_solver.
    + by eapply usedPortsLines_listening.
Qed.

(** X3.  The ports [getUsedPorts] returns are exactly those of the
    lines whose first field holds a colon, whose fourth field is the
    listening state [0A], and whose local address has, after its first
    colon, a piece that parses as a hexadecimal number. *)
Theorem getUsedPorts_contents data used port :
  getUsedPorts data = Normal used →
  port ∈ used ↔
  ∃ line p0 p1 hex, line ∈ Split data "010" ∧
    Fields line !! 0%nat = Some p0 ∧ Contains p0 ":" = true ∧
    Fields line !! 1%nat = Some p1 ∧ Split p1 ":" !! 1%nat = Some hex ∧
    Fields line !! 3%nat = Some "0A" ∧ ParseInt hex 16 0 = Some port.
Proof.
  intros Hrun. rewrite (usedPortsLines_contents _ _ _ port Hrun).
  split; [intros [Hin|H]; [by apply not_elem_of_empty in Hin|done]|by right].
Qed.

(** What [checkPortsInUse] returns once the port data has been read. *)
Lemma checkPortsInUse_run data ports used :
  getUsedPorts data = Normal used →
  checkPortsInUse data ports =
  Normal (match conflictsOf used ports with
          | [] => None
          | _ => Some (Raw ("the following required ports are in use: "
                              +:+ formatInts (conflictsOf used ports)))
          end).
Proof.
  intros Hu. unfold checkPortsInUse. rewrite Hu. simpl.
  by destruct (conflictsOf used ports).
Qed.

Lemma conflictsOf_nil used ports :
  conflictsOf used ports = [] ↔ ∀ port, port ∈ ports → port ∉ used.
Proof.
  split.
  - intros Hc port Hp Hin.
    assert (port ∈ conflictsOf used ports) as Hq by by apply conflictsOf_spec.
    rewrite Hc in Hq. by apply not_elem_of_nil in Hq.
  - intros Hfree. destruct (conflictsOf used ports) as [|q l] eqn:Hc; [done|].
    assert (q ∈ conflictsOf used ports) as Hq by (rewrite Hc; left).
    apply conflictsOf_spec in Hq as [Hp Hin]. by destruct (Hfree q Hp).
Qed.

(** X4.  Once the port data has been read, [checkPortsInUse] returns nil
    exactly when none of the given ports is in use; the error it returns
    otherwise lists the ports that are both given and in use, in the order
    in which they were given. *)
Theorem checkPortsInUse_result data ports used :
  getUsedPorts data = Normal used →
  (checkPortsInUse data ports = Normal None ↔ ∀ port, port ∈ ports → port ∉ used) ∧
  (∀ e, checkPortsInUse data ports = Normal (Some e) →
        e = Raw ("the following required ports are in use: "
                   +:+ formatInts (conflictsOf used ports)) ∧
        conflictsOf used ports ≠ [] ∧
        conflictsOf used ports `sublist_of` ports ∧
        ∀ port, port ∈ conflictsOf used ports ↔ port ∈ ports ∧ port ∈ used).
Proof.
  intros Hu. rewrite (checkPortsInUse_run data ports used Hu), <- conflictsOf_nil.
  split.
  - by destruct (conflictsOf used ports).
  - intros e He. destruct (conflictsOf used ports) as [|q l] eqn:Hc; [done|].
    injection He as <-. rewrite <- Hc. split; [done|]. split; [by rewrite Hc|].
    split; [apply sublist_filter|]. intros port. apply conflictsOf_spec.
Qed.

(** X5.  [TestPorts] on port data that can be read returns nil exactly
    when none of the ports of [tcpPorts] is in use, and otherwise the error
    of [checkPortsInUse] as the cause of a "TCP port conflict". *)
Theorem TestPorts_result data used :
  getUsedPorts data = Normal used →
  (TestPorts (inr data) = Normal None ↔ ∀ port, port ∈ tcpPorts → port ∉ used) ∧
  (∀ e, TestPorts (inr data) = Normal (Some e) →
        e = NewError "TCP port conflict"
              (Some (Raw ("the following required ports are in use: "
                            +:+ formatInts (conflictsOf used tcpPorts)))) ∧
        ∃ port, port ∈ tcpPorts ∧ port ∈ used).
Proof.
  intros Hu. unfold TestPorts.
  rewrite (checkPortsInUse_run data tcpPorts used Hu), <- conflictsOf_nil.
  destruct (conflictsOf used tcpPorts) as [|q l] eqn:Hc; simpl.
  - split; [done|]. by intros e.
  - split; [done|]. intros e [= <-]. split; [done|].
    exists q. apply conflictsOf_spec. rewrite Hc. left.
Qed.

(** *** The theorems above at concrete port data *)

Lemma getUsedPorts_fault_is_fourth_field_witness :
  getUsedPorts "   0: 0100007F:0035 00000000:0000" = IndexOutOfRange 3 3 ∧
  3%nat = 3%nat ∧ (2 ≤ 3 < 4)%nat.
Proof.
  split; [vm_compute; reflexivity|].
  apply (getUsedPorts_fault_is_fourth_field "   0: 0100007F:0035 00000000:0000").
  vm_compute. reflexivity.
Defined.

Lemma getUsedPorts_contents_witness :
  ∃ line p0 p1 hex,
    line ∈ Split "   0: 00000000:0035 00000000:0000 0A" "010" ∧
    Fields line !! 0%nat = Some p0 ∧ Contains p0 ":" = true ∧
    Fields line !! 1%nat = Some p1 ∧ Split p1 ":" !! 1%nat = Some hex ∧
    Fields line !! 3%nat = Some "0A" ∧ ParseInt hex 16 0 = Some 53.
Proof.
  apply (getUsedPorts_contents "   0: 00000000:0035 00000000:0000 0A" {[53]} 53).
  - vm_compute. reflexivity.
  - by apply elem_of_singleton.
Defined.

Lemma checkPortsInUse_result_witness :
  checkPortsInUse "   0: 00000000:1F90 00000000:0000 0A" tcpPorts = Normal None.
Proof.
  apply (checkPortsInUse_result "   0: 00000000:1F90 00000000:0000 0A" tcpPorts {[8080]}).
  - vm_compute. reflexivity.
  - intros port Hp ->%elem_of_singleton. unfold tcpPorts in Hp.
    repeat (apply elem_of_cons in Hp as [Hp|Hp]; [discriminate Hp|]).
    by apply elem_of_nil in Hp.
Defined.

Lemma TestPorts_result_witness :
  NewError "TCP port conflict"
    (Some (Raw "the following required ports are in use: [53]")) =
  NewError "TCP port conflict"
    (Some (Raw ("the following required ports are in use: "
                  +:+ formatInts (conflictsOf {[53]} tcpPorts)))) ∧
  ∃ port, port ∈ tcpPorts ∧ port ∈ ({[53]} : gset Z).
Proof.
  apply (TestPorts_result "   0: 00000000:0035 00000000:0000 0A" {[53]}).
  - vm_compute. reflexivity.
  - vm_compute. reflexivity.
Defined.

End PortsMore.


(** ** The probes *)

Module ProbesFacts.

Import GoStrings Probes.

Lemma Split_no_separator s sep : Contains s sep = false → Split s sep = [s].
Proof.
  induction s as [|c s IH]; simpl; [done|].
  destruct (Ascii.eqb c sep); simpl; [done|]. intros H. by rewrite IH.
Qed.



(** X7.  [OtherIPs] does not trim the output: an output without a space
    and without a colon that differs from [excludeIP] comes back as the
    single address, also when it is empty or only a line feed. *)
Theorem OtherIPs_keeps_untrimmed_piece result excludeIP :
  Contains result " " = false → Contains result ":" = false → result ≠ excludeIP →
  OtherIPs (inr result) excludeIP = ([result], None).
Proof.
  intros Hs Hc Hne. simpl. rewrite Split_no_separator by done. unfold otherIPs.
  rewrite filter_cons_True by done. by rewrite filter_nil.
Qed.

Lemma OtherIPs_keeps_untrimmed_piece_witness :
  OtherIPs (inr (String "010" EmptyString)) "10.0.0.5" = ([String "010" EmptyString], None) ∧
  OtherIPs (inr "") "10.0.0.5" = ([""], None).
Proof.
  split; apply OtherIPs_keeps_untrimmed_piece; first [reflexivity | discriminate].
Defined.

End ProbesFacts.


(** ** More on the start-up sequence *)

Module StartMore.

Import GoStrings OpenShift Traces Counts Scenario Attempts StartFacts.

Lemma runs_app l1 l2 : runs (l1 ++ l2) = (runs l1 + runs l2)%nat.
Proof. induction l1 as [|e l1 IH]; simpl; [done|]. destruct e; simpl; by rewrite ?IH. Qed.

Lemma launches_app l1 l2 : launches (l1 ++ l2) = (launches l1 + launches l2)%nat.
Proof. induction l1 as [|e l1 IH]; simpl; [done|]. destruct e; simpl; by rewrite ?IH. Qed.

Lemma quiet_staging fs l : Forall (staging fs) l → runs l = 0%nat ∧ launches l = 0%nat.
Proof. induction 1 as [|e l He _ IH]; [done|]. by destruct e. Qed.

Lemma quiet_patching l : Forall patching l → runs l = 0%nat ∧ launches l = 0%nat.
Proof. induction 1 as [|e l He _ IH]; [done|]. by destruct e. Qed.

Lemma quiet_polling url l : Forall (polling url) l → runs l = 0%nat ∧ launches l = 0%nat.
Proof. induction 1 as [|e l [->| ->] _ IH]; done. Qed.

Lemma requests_rounds url n : requests (rounds url n) = n.
Proof. induction n as [|n IH]; simpl; by rewrite ?IH. Qed.

(** *** The readiness loop on any script *)

Lemma readinessLoop_rounds url err ts rest (w : World) :
  Forall (λ r, isTransient r = true) ts →
  ∃ w1, readinessLoop url err (ts ++ rest) w = readinessLoop url err rest w1 ∧
        env w1 = env w ∧ local w1 = local w ∧ tmpNames w1 = tmpNames w ∧
        copies w1 = copies w ∧
        trace w1 = trace w ++ rounds url (length ts) ∧
        responses w1 = match ts with [] => responses w | _ => rest end.
Proof.
  intros Hts. revert w. induction Hts as [|t ts Ht _ IH]; intros w.
  - exists w. simpl. rewrite app_nil_r. by repeat split.
  - change ((t :: ts) ++ rest) with (t :: (ts ++ rest)).
    rewrite readinessLoop_transient by done.
    destruct (IH (addEvent (ESleep 500) (addEvent (EHttpGet url) (setResponses (ts ++ rest) w))))
      as (w1 & Heq & Henv & Hloc & Htmp & Hcop & Htr & Hresp).
    exists w1. rewrite Heq. repeat split; try done.
    + rewrite Htr. simpl. by rewrite <- !app_assoc.
    + rewrite Hresp. by destruct ts.
Qed.

(** X8.  After any number of 503 and 403 answers, the first other answer
    ends the readiness loop: a 200 leaves the loop, a transport error and
    any other status return the error of that case.  One request has been
    made for each answer consumed, with a sleep of 500 ms after each
    transient one, and the answers that follow are not requested. *)
Theorem readinessLoop_until_answer url err ts r rest (w : World) :
  Forall (λ r, isTransient r = true) ts → isTransient r = false →
  (readinessLoop url err (ts ++ r :: rest) w).1 =
    match r with
    | GetError _ => Ret ("", Some (NewError ("cannot access master readiness URL " +:+ url) err))
    | Response code body =>
        if code =? StatusOK then Val tt
        else Ret ("", Some (NewError ("server is not ready. Response (" +:+ pretty code
                                        +:+ "): " +:+ match body with inr b => b | inl _ => "" end)
                              None))
    end ∧
  trace (readinessLoop url err (ts ++ r :: rest) w).2 =
    trace w ++ rounds url (length ts) ++ [EHttpGet url] ∧
  requests (trace (readinessLoop url err (ts ++ r :: rest) w).2) =
    (requests (trace w) + length ts + 1)%nat ∧
  responses (readinessLoop url err (ts ++ r :: rest) w).2 = rest.
Proof.
  intros Hts Hr.
  destruct (readinessLoop_rounds url err ts (r :: rest) w Hts)
    as (w1 & -> & _ & _ & _ & _ & Htr & _).
  assert (trace (readinessLoop url err (r :: rest) w1).2 = trace w1 ++ [EHttpGet url] ∧
          responses (readinessLoop url err (r :: rest) w1).2 = rest) as [Htr' Hresp].
  { destruct r as [ierr|code body]; [done|]. simpl in Hr. simpl. unfold_M. simpl.
    rewrite Hr. by destruct (code =? StatusOK). }
  split; [|split; [|split]].
  - destruct r as [ierr|code body]; [done|]. simpl in Hr. simpl. unfold_M. simpl.
    rewrite Hr. by destruct (code =? StatusOK).
  - by rewrite Htr', Htr, <- app_assoc.
  - rewrite Htr', Htr, !requests_app, requests_rounds. simpl. lia.
  - done.
Qed.

Lemma readinessLoop_until_answer_witness :
  (readinessLoop "https://10.0.0.5:8443/healthz/ready" None
     ([Response 503 (inr ""); Response 403 (inr "")]
        ++ Response 404 (inr "not found") :: [Response 200 (inr "ok")])
     (world (healthy true) [] [])).1 =
  Ret ("", Some (NewError "server is not ready. Response (404): not found" None)).
Proof.
  refine (proj1 (readinessLoop_until_answer _ None
                   [Response 503 (inr ""); Response 403 (inr "")]
                   (Response 404 (inr "not found")) [Response 200 (inr "ok")]
                   (world (healthy true) [] []) _ _)).
  - repeat constructor.
  - reflexivity.
Defined.

(** X9.  On answers that are all 503 or 403 the readiness loop never
    returns by itself: it has made one request and one sleep of 500 ms
    for each of them, and goes on. *)
Theorem readinessLoop_waits_on_transients url err ts (w : World) :
  Forall (λ r, isTransient r = true) ts →
  (readinessLoop url err ts w).1 = Hang ∧
  trace (readinessLoop url err ts w).2 = trace w ++ rounds url (length ts) ∧
  requests (trace (readinessLoop url err ts w).2) = (requests (trace w) + length ts)%nat.
Proof.
  intros Hts.
  destruct (readinessLoop_rounds url err ts [] w Hts) as (w1 & Heq & _ & _ & _ & _ & Htr & _).
  rewrite app_nil_r in Heq. rewrite Heq. simpl.
  split; [done|]. split; [done|]. rewrite Htr, requests_app, requests_rounds. lia.
Qed.

Lemma readinessLoop_waits_on_transients_witness :
  (readinessLoop "https://10.0.0.5:8443/healthz/ready" None
     [Response 503 (inr ""); Response 403 (inr ""); Response 503 (inl (Raw "EOF"))]
     (world (healthy true) [] [])).1 = Hang.
Proof.
  refine (proj1 (readinessLoop_waits_on_transients _ None _ (world (healthy true) [] []) _)).
  repeat constructor.
Defined.

(** *** Staging and patching *)



(** X11.  When [copyConfig] succeeds, the directory it returns did not
    exist before, has a name that is not empty, and holds what
    [CopyFromHost] delivered; the call made the directory and copied
    into it, nothing else. *)
Theorem copyConfig_success_is_fresh {R} hostDir (w w' : World) dir :
  copyConfig (R:=R) hostDir w = (Val (dir, None), w') →
  dir ≠ "" ∧ local w !! dir = None ∧
  ∃ t rest, copies w = inr t :: rest ∧ copies w' = rest ∧
            local w' = <[dir := t]> (local w) ∧
            trace w' = trace w ++ [EMkdirTemp dir; ECopyFromHost hostDir dir].
Proof.
  unfold_M.
  destruct (pickTemp (local w) "openshift-config" (tmpNames w)) as [[d|] names] eqn:Hpick;
    simpl; [|done].
  apply pickTemp_Some in Hpick as [Hfresh [n ->]].
  destruct (copies w) as [|[e|t] cs]; simpl; [done..|].
  intros [= <- <-]. split; [done|]. split; [done|]. exists t, cs. simpl.
  split; [done|]. split; [done|]. split; [by rewrite insert_insert_eq|].
  by rewrite <- app_assoc.
Qed.

Lemma copyConfig_success_is_fresh_witness :
  ∃ t rest, copies (world (healthy true) [inr generated; inr incomplete] []) = inr t :: rest ∧
    copies (@copyConfig unit "/var/lib/origin/openshift.local.config"
              (world (healthy true) [inr generated; inr incomplete] [])).2 = rest ∧
    local (@copyConfig unit "/var/lib/origin/openshift.local.config"
             (world (healthy true) [inr generated; inr incomplete] [])).2 =
      <[staged := t]> (local (world (healthy true) [inr generated; inr incomplete] [])) ∧
    trace (@copyConfig unit "/var/lib/origin/openshift.local.config"
             (world (healthy true) [inr generated; inr incomplete] [])).2 =
      trace (world (healthy true) [inr generated; inr incomplete] []) ++
        [EMkdirTemp staged; ECopyFromHost "/var/lib/origin/openshift.local.config" staged].
Proof.
  refine (proj2 (proj2 (copyConfig_success_is_fresh (R:=unit)
                          "/var/lib/origin/openshift.local.config"
                          (world (healthy true) [inr generated; inr incomplete] [])
                          _ staged _))).
  vm_compute. reflexivity.
Defined.

Section Codec.

Context {Rest : Type}.
Variable DecodeMasterConfig : string → error + MasterConfig Rest.
Variable WriteYAML : MasterConfig Rest → error + string.

Local Abbreviation updateConfig R :=
  (@OpenShift.updateConfig Rest DecodeMasterConfig WriteYAML R).
Local Abbreviation Start R := (@OpenShift.Start Rest DecodeMasterConfig WriteYAML R).

Lemma patched_eq h serverIP (cfg : MasterConfig Rest) :
  (if (0 <? String.length (routingSuffix h))%nat
   then setSubdomain cfg (routingSuffix h)
   else setSubdomain cfg (serverIP +:+ ".xip.io")) =
  setSubdomain cfg (patchedSubdomain h serverIP).
Proof. unfold patchedSubdomain. by destruct (0 <? String.length (routingSuffix h))%nat. Qed.

(** What [updateConfig] does, case by case. *)
Lemma updateConfig_cases {R} h configDir hostDir serverIP (w : World) :
  ∃ res w', updateConfig R h configDir hostDir serverIP w = (Val res, w') ∧
    env w' = env w ∧ responses w' = responses w ∧
    tmpNames w' = tmpNames w ∧ copies w' = copies w ∧
    ((∃ e, res = Some e ∧ w' = w ∧
           (fileAt (local w) (configDir, masterConfigYAML) = None ∨
            ∃ data, fileAt (local w) (configDir, masterConfigYAML) = Some data ∧
              (DecodeMasterConfig data = inl e ∨
               ∃ cfg, DecodeMasterConfig data = inr cfg ∧
                      WriteYAML (setSubdomain cfg (patchedSubdomain h serverIP)) = inl e))) ∨
     (∃ t data cfg bytes,
        local w !! configDir = Some t ∧ t !! masterConfigYAML = Some data ∧
        DecodeMasterConfig data = inr cfg ∧ WriteYAML (setSubdomain cfg (patchedSubdomain h serverIP)) = inr bytes ∧
        ((∃ e, writeFile_err (env w) = Some e ∧ res = Some e ∧ local w' = local w ∧
               trace w' = trace w ++ [EWriteFile (configDir, masterConfigYAML)]) ∨
         (writeFile_err (env w) = None ∧ res = copyMasterConfigToHost_err (env w) ∧
          local w' = <[configDir := <[masterConfigYAML := bytes]> t]> (local w) ∧
          trace w' = trace w ++ [EWriteFile (configDir, masterConfigYAML);
                                 ECopyMasterConfigToHost (configDir, masterConfigYAML)
                                   hostDir])))).
Proof.
  unfold OpenShift.updateConfig, OpenShift.ReadMasterConfig, fileAt. unfold_M. simpl.
  destruct (local w !! configDir) as [t|] eqn:Hdir; simpl.
  2:{ eexists _, _. repeat split; try done. left. eexists. repeat split; try done. by left. }
  destruct (t !! masterConfigYAML) as [data|] eqn:Hfile; simpl.
  2:{ eexists _, _. repeat split; try done. left. eexists. repeat split; try done. by left. }
  destruct (DecodeMasterConfig data) as [e|cfg] eqn:Hdec; simpl.
  { eexists _, _. repeat split; try done. left. eexists. repeat split; try done.
    right. eexists. split; [done|]. by left. }
  rewrite patched_eq.
  destruct (WriteYAML _) as [e|bytes] eqn:Hwr; simpl.
  { eexists _, _. repeat split; try done. left. eexists. repeat split; try done.
    right. eexists. split; [done|]. right. by eexists. }
  rewrite Hdir. destruct (writeFile_err (env w)) as [e|] eqn:Hw; simpl.
  { eexists _, _. repeat split; try done. right. exists t, data, cfg, bytes.
    repeat split; try done. left. by eexists. }
  eexists _, _. repeat split; try done. right. exists t, data, cfg, bytes.
  repeat split; try done. right. repeat split; try done. simpl. by rewrite <- app_assoc.
Qed.


(** [updateConfig] creates and removes no directory, and leaves every
    directory but [configDir] as it was. *)
Lemma updateConfig_frame {R} h configDir hostDir serverIP (w w' : World) r :
  updateConfig R h configDir hostDir serverIP w = (r, w') →
  dom (local w') = dom (local w) ∧
  (∀ d, d ≠ configDir → local w' !! d = local w !! d).
Proof.
  intros H.
  destruct (updateConfig_cases (R:=R) h configDir hostDir serverIP w)
    as (res & w1 & Heq & _ & _ & _ & _ & Hcases).
  rewrite H in Heq. injection Heq as -> ->.
  destruct Hcases as [(e & _ & -> & _)|(t & data & cfg & bytes & Hdir & _ & _ & _ & Hw)];
    [done|].
  destruct Hw as [(e & _ & _ & -> & _)|(_ & _ & -> & _)]; [done|].
  split.
  - rewrite dom_insert_L. apply subseteq_union_1_L, singleton_subseteq_l.
    by apply elem_of_dom_2 in Hdir.
  - intros d Hd. by rewrite lookup_insert_ne.
Qed.

(** X12.  Whatever [updateConfig] returns, it has created and removed no
    directory, has left every directory but [configDir] untouched, and in
    [configDir] every file but master/master-config.yaml. *)
Theorem updateConfig_touches_one_file {R} h configDir hostDir serverIP (w w' : World) r :
  updateConfig R h configDir hostDir serverIP w = (r, w') →
  dom (local w') = dom (local w) ∧
  (∀ d, d ≠ configDir → local w' !! d = local w !! d) ∧
  (∀ f, f ≠ masterConfigYAML →
        fileAt (local w') (configDir, f) = fileAt (local w) (configDir, f)).
Proof.
  intros H.
  destruct (updateConfig_frame h configDir hostDir serverIP w w' r H) as [Hdom Hframe].
  split; [done|]. split; [done|].
  destruct (updateConfig_cases (R:=R) h configDir hostDir serverIP w)
    as (res & w1 & Heq & _ & _ & _ & _ & Hcases).
  rewrite H in Heq. injection Heq as -> ->.
  destruct Hcases as [(e & _ & -> & _)|(t & data & cfg & bytes & Hdir & _ & _ & _ & Hw)];
    [done|].
  destruct Hw as [(e & _ & _ & -> & _)|(_ & _ & -> & _)]; [done|].
  intros f Hf. unfold fileAt. simpl. rewrite lookup_insert_eq, Hdir. simpl.
  by rewrite lookup_insert_ne.
Qed.

(** X13.  [updateConfig] does not roll back: when the patched
    configuration is written locally and the copy to the host fails, the
    call returns that error and the local file stays patched. *)
Theorem updateConfig_does_not_roll_back {R} h configDir hostDir serverIP (w : World) e :
  writeFile_err (env w) = None → copyMasterConfigToHost_err (env w) = Some e →
  ∀ data cfg bytes,
    fileAt (local w) (configDir, masterConfigYAML) = Some data →
    DecodeMasterConfig data = inr cfg →
    WriteYAML (setSubdomain cfg (patchedSubdomain h serverIP)) = inr bytes →
    (updateConfig R h configDir hostDir serverIP w).1 = Val (Some e) ∧
    fileAt (local (updateConfig R h configDir hostDir serverIP w).2)
      (configDir, masterConfigYAML) = Some bytes.
Proof.
  intros Hwrite Hcommit data cfg bytes Hfile Hdec Henc.
  destruct (updateConfig_cases (R:=R) h configDir hostDir serverIP w)
    as (res & w1 & Heq & _ & _ & _ & _ & Hcases).
  rewrite Heq. simpl. unfold fileAt in *. simpl in *.
  destruct Hcases as [(e' & _ & _ & Hwhy)|(t & data' & cfg' & bytes' & Hdir & Hf & Hd & He & Hw)].
  - destruct Hwhy as [Hnone|(data' & Hsome & Hwhy)]; [congruence|].
    assert (data' = data) as -> by congruence.
    destruct Hwhy as [?|(cfg' & ? & ?)]; [congruence|].
    assert (cfg' = cfg) as -> by congruence. congruence.
  - rewrite Hdir in Hfile. simpl in Hfile.
    assert (data' = data) as -> by congruence.
    assert (cfg' = cfg) as -> by congruence.
    assert (bytes' = bytes) as -> by congruence.
    destruct Hw as [(e' & ? & _)|(_ & -> & -> & _)]; [congruence|].
    split; [by rewrite Hcommit|]. rewrite lookup_insert_eq. simpl. apply lookup_insert_eq.
Qed.

End Codec.

Lemma updateConfig_touches_one_file_witness :
  fileAt (local (@OpenShift.updateConfig string decodeLines encodeLines unit origin staged
                   "/var/lib/origin/openshift.local.config" "10.0.0.5"
                   (@copyConfig unit "/var/lib/origin/openshift.local.config"
                      (world (healthy true) [inr generated] [])).2).2)
    (staged, "master/ca.crt") = Some "-----BEGIN CERTIFICATE-----".
Proof.
  rewrite (proj2 (proj2 (updateConfig_touches_one_file decodeLines encodeLines (R:=unit)
                           origin staged "/var/lib/origin/openshift.local.config" "10.0.0.5"
                           _ _ _ (surjective_pairing _))) "master/ca.crt") by discriminate.
  vm_compute. reflexivity.
Defined.

Lemma updateConfig_does_not_roll_back_witness :
  fileAt (local (@OpenShift.updateConfig string decodeLines encodeLines unit origin staged
                   "/var/lib/origin/openshift.local.config" "10.0.0.5"
                   (@copyConfig unit "/var/lib/origin/openshift.local.config"
                      (world hostReadOnly [inr generated] [])).2).2)
    (staged, masterConfigYAML) = Some ("10.0.0.5.xip.io" +:+ nl +:+ "servingInfo: {}").
Proof.
  refine (proj2 (updateConfig_does_not_roll_back decodeLines encodeLines (R:=unit)
                   origin staged "/var/lib/origin/openshift.local.config" "10.0.0.5"
                   (@copyConfig unit "/var/lib/origin/openshift.local.config"
                      (world hostReadOnly [inr generated] [])).2
                   (Raw "read-only file system") eq_refl eq_refl
                   ("router.default.local" +:+ nl +:+ "servingInfo: {}")
                   {| RoutingConfig_Subdomain := "router.default.local";
                      otherFields := "servingInfo: {}" |}
                   _ _ _ _)).
  - vm_compute. reflexivity.
  - vm_compute. reflexivity.
  - vm_compute. reflexivity.
Defined.

End StartMore.


(** ** The whole attempt *)

Module StartSequence.

Import GoStrings OpenShift Traces Counts Scenario Attempts StartFacts StartMore.

Lemma readinessLoop_cause url err script (w : World) p e :
  (readinessLoop url err script w).1 = Ret (p, e) →
  p = "" ∧ ∃ msg, e = Some (NewError msg err) ∨ e = Some (NewError msg None).
Proof.
  revert w. induction script as [|r script IH]; intros w; simpl; [done|].
  unfold_M. simpl. destruct r as [ierr|code body]; simpl.
  { intros [= <- <-]. split; [done|]. eexists. by left. }
  destruct (code =? StatusOK); [done|].
  destruct ((code =? StatusServiceUnavailable) || (code =? StatusForbidden)).
  - match goal with
    | |- context [readinessLoop url err script ?w1] =>
        specialize (IH w1); destruct (readinessLoop url err script w1) as [[?|[??]|] ?]
    end; done.
  - intros [= <- <-]. split; [done|]. eexists. by right.
Qed.

Lemma readinessLoop_outcome url err script (w : World) :
  ∃ r w' new, readinessLoop url err script w = (r, w') ∧
    env w' = env w ∧ local w' = local w ∧
    trace w' = trace w ++ new ∧ Forall (polling url) new ∧
    match r with
    | Ret (p, e) => p = "" ∧ ∃ msg, e = Some (NewError msg err) ∨ e = Some (NewError msg None)
    | Hang => Forall (λ r, isTransient r = true) script ∧ new = rounds url (length script)
    | Val _ => True
    end.
Proof.
  destruct (readinessLoop_spec url err script w)
    as (r & w' & new & Heq & Henv & Hloc & Htr & Hnew & Hr).
  exists r, w', new. repeat split; try done.
  destruct r as [?|[p e]|]; try done.
  - apply (readinessLoop_cause url err script w). by rewrite Heq.
  - split; [done|].
    destruct (readinessLoop_rounds url err script [] w Hr) as (w1 & Heq1 & _ & _ & _ & _ & Htr1 & _).
    rewrite app_nil_r, Heq in Heq1. simpl in Heq1. injection Heq1 as ->.
    simpl in Htr1. rewrite Htr in Htr1. by apply app_inv_head in Htr1.
Qed.

Lemma launches_rounds url n : launches (rounds url n) = 0%nat.
Proof. induction n as [|n IH]; simpl; by rewrite ?IH. Qed.

Lemma silent_staging fs l :
  Forall (staging fs) l → runs l = 0%nat ∧ launches l = 0%nat ∧ requests l = 0%nat.
Proof. induction 1 as [|e l He _ IH]; [done|]. by destruct e. Qed.

Lemma silent_patching l :
  Forall patching l → runs l = 0%nat ∧ launches l = 0%nat ∧ requests l = 0%nat.
Proof. induction 1 as [|e l He _ IH]; [done|]. by destruct e. Qed.

Ltac split_in Hin :=
  repeat first
    [ apply elem_of_nil in Hin; destruct Hin
    | apply elem_of_app in Hin as [Hin|Hin]
    | apply elem_of_cons in Hin as [Hin|Hin] ].

(** The hypothesis on [new] turned into its value. *)
Ltac name_trace H Hnew new :=
  injection H as <- <-; simpl in Hnew;
  repeat match type of Hnew with
         | context [if String.eqb ?a ?b then _ else _] => destruct (String.eqb a b)
         end;
  simpl in Hnew; revert Hnew; back_to_start;
  intros Hnew%app_inv_head; subst new.

(** No event of the kind of [Hin] lies in a segment that only stages,
    patches or polls. *)
Ltac not_in_segment Hin :=
  match goal with
  | Hs : Forall _ ?l |- _ =>
      match type of Hin with _ ∈ l => idtac end;
      eapply Forall_forall in Hs; [|exact Hin]; simpl in Hs;
      first [ done | destruct Hs as [?|?]; done ]
  end.

Section Codec.

Context {Rest : Type}.
Variable DecodeMasterConfig : string → error + MasterConfig Rest.
Variable WriteYAML : MasterConfig Rest → error + string.

Local Abbreviation updateConfig R :=
  (@OpenShift.updateConfig Rest DecodeMasterConfig WriteYAML R).
Local Abbreviation Start R := (@OpenShift.Start Rest DecodeMasterConfig WriteYAML R).

Lemma updateConfig_outcome {R} h configDir hostDir serverIP (w : World) :
  ∃ res w' new, updateConfig R h configDir hostDir serverIP w = (Val res, w') ∧
    env w' = env w ∧ responses w' = responses w ∧
    dom (local w') = dom (local w) ∧
    (∀ d, d ≠ configDir → local w' !! d = local w !! d) ∧
    trace w' = trace w ++ new ∧ Forall patching new ∧
    (res = None → is_Some (fileAt (local w') (configDir, masterConfigYAML))).
Proof.
  destruct (updateConfig_cases DecodeMasterConfig WriteYAML (R:=R) h configDir hostDir serverIP w)
    as (res & w' & Heq & Henv & Hresp & _ & _ & Hcases).
  destruct (updateConfig_frame DecodeMasterConfig WriteYAML (R:=R)
              h configDir hostDir serverIP w w' (Val res) Heq) as (Hdom & Hframe).
  destruct Hcases as [(e & -> & -> & _)|(t & data & cfg & bytes & Hdir & _ & _ & _ & Hw)].
  { exists (Some e), w, []. rewrite app_nil_r. by repeat split. }
  destruct Hw as [(e & _ & -> & Hloc & Htr)|(_ & -> & Hloc & Htr)].
  { exists (Some e), w', [EWriteFile (configDir, masterConfigYAML)].
    repeat split; try done. by repeat constructor. }
  eexists _, w', _. repeat split; try done; [by repeat constructor|].
  intros _. unfold fileAt. rewrite Hloc. simpl. rewrite lookup_insert_eq. simpl.
  rewrite lookup_insert_eq. by eexists.
Qed.

(** The scrutinee on which the left-hand side is stuck. *)
Ltac head_scrut t :=
  lazymatch t with
  | match ?x with _ => _ end => head_scrut x
  | (match ?x with _ => _ end) _ => head_scrut x
  | _ => constr:(t)
  end.

Ltac step H :=
  lazymatch type of H with
  | ?lhs = _ =>
      let x := head_scrut lhs in
      lazymatch x with
      | (_, _) => fail
      | @copyConfig ?R ?d ?w =>
          let w1 := fresh "w" in
          let Henv := fresh "Henv" in let Hresp := fresh "Hresp" in
          let Heq := fresh "Heq" in let Hloc := fresh "Hloc" in
          let Htr := fresh "Htr" in let Hst := fresh "Hst" in
          let Hne := fresh "Hne" in let Hfresh := fresh "Hfresh" in
          let e := fresh "e" in let new := fresh "new" in
          let dir := fresh "dir" in let t := fresh "t" in
          destruct (copyConfig_spec (R:=R) d w)
            as (w1 & Henv & Hresp & [(e & new & Heq & Hloc & Htr & Hst)
                                    |(dir & t & Heq & Hne & Hfresh & Hloc & Htr)]);
          rewrite Heq in H; clear Heq
      | @OpenShift.updateConfig _ _ _ ?R ?h ?c ?d ?ip ?w =>
          let w1 := fresh "w" in let res := fresh "res" in
          let Henv := fresh "Henv" in let Hresp := fresh "Hresp" in
          let Heq := fresh "Heq" in let Hdom := fresh "Hdom" in
          let Hloc := fresh "Hloc" in let Hfile := fresh "Hfile" in
          let Htr := fresh "Htr" in let Hst := fresh "Hst" in
          let new := fresh "new" in
          destruct (updateConfig_outcome (R:=R) h c d ip w)
            as (res & w1 & new & Heq & Henv & Hresp & Hdom & Hloc & Htr & Hst & Hfile);
          rewrite Heq in H; clear Heq
      | readinessLoop ?url ?err ?script ?w =>
          let w1 := fresh "w" in let r := fresh "r" in
          let Henv := fresh "Henv" in
          let Heq := fresh "Heq" in
          let Hloc := fresh "Hloc" in
          let Htr := fresh "Htr" in let Hst := fresh "Hst" in
          let Hr := fresh "Hr" in
          let new := fresh "new" in
          destruct (readinessLoop_outcome url err script w)
            as (r & w1 & new & Heq & Henv & Hloc & Htr & Hst & Hr);
          rewrite Heq in H; clear Heq
      | _ => destruct x eqn:?
      end
  end;
  simpl in H.

(** [Start] unfolded, the bind mounts and the environment kept abstract. *)
Ltac exec H :=
  unfold OpenShift.Start in H;
  match type of H with
  | context [if UseSharedVolume ?o then ?a else ?b] =>
      let p := fresh "p" in let Hp := fresh "Hbinds" in
      remember (if UseSharedVolume o then a else b) as p eqn:Hp;
      destruct p as [? ?]
  end;
  unfold getOpenShiftConfigFiles, masterHTTPClient, cleanupConfig,
    RemoveAll, Stat, Hostname, Run, StartContainer, GetContainerState,
    WaitForSuccessfulDial, Fprintf, Sleep, emit, ask, val, ret, hang, call,
    mbind, M_bind, mret, M_ret in H;
  simpl in H; repeat step H; simpl in *.

Ltac drop_poll_failure H :=
  try match goal with
      | Hr : let (_, _) := ?r0 in _ |- _ =>
          destruct r0; destruct Hr as (-> & ? & [->| ->]); discriminate H
      end.

Ltac local_to_start :=
  repeat match goal with
         | Hl : local ?y = _ |- context [local ?y] => rewrite Hl
         end.

(** X15.  A successful [Start] returns a directory that did not exist
    when the attempt began and that holds master/master-config.yaml when
    it ends. *)
Theorem Start_success_holds_master_config {R} h opt (w w' : World) p :
  Start R h opt w = (Val (p, None), w') →
  local w !! p = None ∧ is_Some (fileAt (local w') (p, masterConfigYAML)).
Proof.
  intros H. exec H.
  all: try discriminate H.
  all: drop_poll_failure H.
  all: injection H as <- <-; split.
  all: try match goal with
           | Hf : local ?x !! ?d = None |- local _ !! ?d = None =>
               revert Hf; local_to_start; rewrite ?lookup_insert_None; tauto
           end.
  all: simpl;
    match goal with Hl : local ?y = local _ |- context [local ?y] => rewrite Hl end.
  all: first [ by apply Hfile | eexists; eassumption ].
Qed.

(** Every directory the attempt makes is another one than [d], which was
    there before. *)
Ltac others_than d Hd :=
  repeat match goal with
         | Hf : local ?x !! ?dir = None |- _ =>
             lazymatch goal with
             | _ : dir ≠ d |- _ => fail
             | _ => idtac
             end;
             assert (dir ≠ d)
               by (intros ->; revert Hf; local_to_start;
                   repeat (rewrite lookup_insert_ne by done); congruence)
         end.

(** X16.  No exit of [Start], and no attempt that keeps waiting, changes
    or removes a local directory that existed when the attempt began. *)
Theorem Start_keeps_existing_directories {R} h opt (w w' : World) r d :
  Start R h opt w = (r, w') → is_Some (local w !! d) → local w' !! d = local w !! d.
Proof.
  intros H [td Hd]. exec H.
  all: injection H as <- <-; simpl.
  all: others_than d Hd.
  all: repeat match goal with
              | |- context [if String.eqb ?a ?b then _ else _] =>
                  destruct (String.eqb a b); simpl
              end.
  all: local_back; done.
Qed.

(** X17.  Whenever [Start] launches the container, it does so with the
    image and the name of the helper, privileged, on the host network and
    in the host PID namespace, not discarded; with the environment and the
    bind mounts built from the options in the order of the source; and
    with the start command for the master and node configuration of the
    node directory named after the host name. *)
Theorem Start_launch_spec {R} h opt (w w' : World) r new spec :
  Start R h opt w = (r, w') → trace w' = trace w ++ new → EStart spec ∈ new →
  rImage spec = image h ∧ rName spec = containerName h ∧
  rPrivileged spec = true ∧ rDiscardContainer spec = false ∧
  rHostNetwork spec = true ∧ rHostPid spec = true ∧
  rEnv spec = (if UseSharedVolume opt then ["OPENSHIFT_CONTAINERIZED=false"] else [])
                ++ Environment opt ∧
  rBinds spec =
    openShiftContainerBinds
      ++ [if UseSharedVolume opt
          then HostVolumesDir opt +:+ ":" +:+ HostVolumesDir opt +:+ ":shared"
          else HostVolumesDir opt +:+ ":" +:+ HostVolumesDir opt]
      ++ [HostConfigDir opt +:+ ":/var/lib/origin/openshift.local.config:z"]
      ++ (if (0 <? String.length (HostDataDir opt))%nat
          then [HostDataDir opt +:+ ":/var/lib/origin/openshift.local.etcd:z"] else []) ∧
  ∃ hostname, hostname_result (env w) = inr hostname ∧
    rCommand spec =
      startCmd opt "/var/lib/origin/openshift.local.config/master/master-config.yaml"
        ("/var/lib/origin/openshift.local.config/node-" +:+ hostname +:+ "/node-config.yaml").
Proof.
  intros H Hnew Hin. exec H.
  all: name_trace H Hnew new.
  all: split_in Hin; try discriminate Hin; try not_in_segment Hin.
  all: injection Hin as ->; simpl.
  all: destruct (UseSharedVolume opt); injection Hbinds as -> ->.
  all: destruct (0 <? String.length (HostDataDir opt))%nat; simpl.
  all: repeat split; eexists; (split; [eassumption|reflexivity]).
Qed.

Ltac running_is_true :=
  repeat match goal with
         | Hb : negb ?b = false |- _ => destruct b; [clear Hb|discriminate Hb]
         end.

(** X18.  [Start] requests only the readiness URL of [ServerIP], and only
    after the launch, the state query, the dial and the building of the
    transport have all succeeded. *)
Theorem Start_polls_only_when_listening {R} h opt (w w' : World) r new url :
  Start R h opt w = (r, w') → trace w' = trace w ++ new → EHttpGet url ∈ new →
  url = healthzReadyURL (ServerIP opt) ∧
  start_err (env w) = None ∧ containerState_result (env w) = inr true ∧
  dial_err (env w) = None ∧ transportFor_err (env w) = None.
Proof.
  intros H Hnew Hin. exec H.
  all: name_trace H Hnew new.
  all: split_in Hin; try discriminate Hin; try not_in_segment Hin.
  all: running_is_true.
  all: match goal with
       | Hs : Forall (polling _) ?l |- _ =>
           eapply Forall_forall in Hs; [|exact Hin]; destruct Hs as [[= ->]|[=]]
       end.
  all: by repeat split.
Qed.

(** X19.  When the transport for the readiness client cannot be built,
    [Start] returns the error of [TransportFor] itself with the empty
    path, makes no request, and leaves the staged directory, in which the
    CA certificate was looked up, in place. *)
Theorem Start_transport_error_verbatim {R} h opt (w w' : World) r new caCert e :
  Start R h opt w = (r, w') → trace w' = trace w ++ new →
  ETransportFor caCert ∈ new → transportFor_err (env w) = Some e →
  r = Val ("", Some e) ∧ requests new = 0%nat ∧
  ∃ configDir, caCert = (configDir, "master/ca.crt") ∧ is_Some (local w' !! configDir).
Proof.
  intros H Hnew Hin Herr. exec H.
  all: name_trace H Hnew new.
  all: split_in Hin; try discriminate Hin; try not_in_segment Hin.
  all: try congruence.
  all: injection Hin as ->.
  all: split; [congruence|].
  all: split;
    [ repeat (progress (rewrite ?requests_app; simpl));
      repeat match goal with
             | Hs : Forall (staging _) _ |- _ =>
                 apply silent_staging in Hs as (_ & _ & ->)
             | Hs : Forall patching _ |- _ => apply silent_patching in Hs as (_ & _ & ->)
             end; done |].
  all: eexists; split; [reflexivity|].
  all: apply elem_of_dom; simpl;
    repeat match goal with
           | Hl : local ?y = _ |- context [local ?y] => rewrite Hl
           | Hd : dom (local ?y) = _ |- context [dom (local ?y)] => rewrite Hd
           end;
    rewrite ?dom_insert_L, ?elem_of_union, ?elem_of_singleton; tauto.
Qed.

Ltac count_segments :=
  repeat match goal with
         | Hs : Forall (staging _) _ |- _ => apply silent_staging in Hs as (? & ? & ?)
         | Hs : Forall patching _ |- _ => apply silent_patching in Hs as (? & ? & ?)
         | Hs : Forall (polling ?u) _ |- _ =>
             let Hq := fresh in pose proof (quiet_polling u _ Hs) as [? ?]; clear Hs
         end;
  repeat (progress (rewrite ?runs_app, ?launches_app, ?requests_app; simpl)).

(** X20.  An attempt runs the generation command at most once and
    launches the container at most once; without [UseExistingConfig] it
    always runs the generation command, and requests to the readiness URL
    are made only in an attempt that has launched the container. *)
Theorem Start_runs_and_launches_once {R} h opt (w w' : World) r new :
  Start R h opt w = (r, w') → trace w' = trace w ++ new →
  (runs new ≤ 1)%nat ∧ (launches new ≤ 1)%nat ∧
  (UseExistingConfig opt = false → runs new = 1%nat) ∧
  (0 < requests new → launches new = 1)%nat.
Proof.
  intros H Hnew. exec H.
  all: name_trace H Hnew new.
  all: count_segments.
  all: repeat split; try lia; try congruence.
Qed.

(** X21.  [Start] fails to return only inside the readiness loop, when
    every scripted answer is a 503 or a 403: the container has been
    launched once and found running, the dial has succeeded, and one
    request has been made for each answer. *)
Theorem Start_waits_only_for_readiness {R} h opt (w w' : World) new :
  Start R h opt w = (Hang, w') → trace w' = trace w ++ new →
  Forall (λ r, isTransient r = true) (responses w) ∧
  requests new = length (responses w) ∧ launches new = 1%nat ∧
  containerState_result (env w) = inr true ∧ dial_err (env w) = None.
Proof.
  intros H Hnew. exec H.
  all: try discriminate H.
  all: try match goal with
           | Hh : Val _ = Hang |- _ => discriminate Hh
           | Hh : Ret _ = Hang |- _ => discriminate Hh
           end.
  all: destruct Hr as [Hr ->].
  all: revert Hr;
    repeat match goal with
           | Hs : responses ?x = _ |- context [responses ?x] => rewrite Hs
           end; intros Hr.
  all: running_is_true.
  all: injection H as <-; simpl in Hnew; revert Hnew; back_to_start;
    intros Hnew%app_inv_head; subst new.
  all: split; [done|].
  all: count_segments; rewrite ?requests_rounds.
  all: repeat match goal with
              | Hs : responses ?x = _ |- context [responses ?x] => rewrite Hs
              end.
  all: rewrite ?launches_rounds.
  all: repeat split; (done || lia).
Qed.


End Codec.

(** *** The theorems above at concrete attempts *)

Lemma Start_success_holds_master_config_witness :
  local (world (healthy true) [inr generated] [Response 200 (inr "ok")]) !! staged = None ∧
  is_Some (fileAt (local (attempt fresh
                            (world (healthy true) [inr generated]
                               [Response 200 (inr "ok")])).2)
             (staged, masterConfigYAML)).
Proof.
  apply (Start_success_holds_master_config decodeLines encodeLines (R:=unit) origin fresh).
  vm_compute. reflexivity.
Defined.

Lemma Start_keeps_existing_directories_witness :
  local (attempt fresh (occupied [Response 200 (inr "ok")])).2 !! staged = Some incomplete ∧
  (attempt fresh (occupied [Response 200 (inr "ok")])).1 = Val (staged2, None).
Proof.
  split; [|vm_compute; reflexivity].
  unfold attempt.
  rewrite (Start_keeps_existing_directories decodeLines encodeLines (R:=unit) origin fresh
             (occupied [Response 200 (inr "ok")]) _ _ staged (surjective_pairing _)).
  - vm_compute. reflexivity.
  - vm_compute. by eexists.
Defined.

Lemma Start_launch_spec_witness :
  Forall (λ e, match e with
               | EStart spec => rName spec = "origin" ∧ rPrivileged spec = true
               | _ => True
               end)
    (trace (attempt fresh (world (healthy true) [inr generated] [Response 200 (inr "ok")])).2).
Proof.
  apply Forall_forall. intros [] Hin; try exact I.
  destruct (Start_launch_spec decodeLines encodeLines (R:=unit) origin fresh
              (world (healthy true) [inr generated] [Response 200 (inr "ok")])
              _ _ _ spec (surjective_pairing _) eq_refl Hin) as (_ & Hname & Hpriv & _).
  by split.
Defined.

Lemma Start_polls_only_when_listening_witness :
  Forall (λ e, match e with
               | EHttpGet url => url = "https://10.0.0.5:8443/healthz/ready"
               | _ => True
               end)
    (trace (attempt fresh (world (healthy true) [inr generated]
                             [Response 503 (inr ""); Response 200 (inr "ok")])).2).
Proof.
  apply Forall_forall. intros [] Hin; try exact I.
  exact (proj1 (Start_polls_only_when_listening decodeLines encodeLines (R:=unit) origin fresh
                  (world (healthy true) [inr generated]
                     [Response 503 (inr ""); Response 200 (inr "ok")])
                  _ _ _ url (surjective_pairing _) eq_refl Hin)).
Defined.

Lemma Start_transport_error_verbatim_witness :
  (attempt fresh (world badCA [inr generated] [Response 200 (inr "ok")])).1 =
  Val ("", Some (Raw "x509: malformed certificate")).
Proof.
  refine (proj1 (Start_transport_error_verbatim decodeLines encodeLines (R:=unit) origin fresh
                   (world badCA [inr generated] [Response 200 (inr "ok")])
                   _ _ _ (staged, "master/ca.crt") _ (surjective_pairing _) eq_refl _ eq_refl)).
  vm_compute. find_event.
Defined.

Lemma Start_runs_and_launches_once_witness :
  runs (trace (attempt fresh (world (healthy false) [inr generated] [])).2) = 1%nat.
Proof.
  exact (proj1 (proj2 (proj2
           (Start_runs_and_launches_once decodeLines encodeLines (R:=unit) origin fresh
              (world (healthy false) [inr generated] []) _ _ _
              (surjective_pairing _) eq_refl))) eq_refl).
Defined.

Lemma Start_waits_only_for_readiness_witness :
  requests (trace (attempt fresh (world (healthy true) [inr generated]
                                    [Response 503 (inr ""); Response 403 (inr "")])).2) =
  2%nat.
Proof.
  refine (proj1 (proj2
           (Start_waits_only_for_readiness decodeLines encodeLines (R:=unit) origin fresh
              (world (healthy true) [inr generated]
                 [Response 503 (inr ""); Response 403 (inr "")])
              (attempt fresh (world (healthy true) [inr generated]
                                [Response 503 (inr ""); Response 403 (inr "")])).2
              _ _ eq_refl))).
  vm_compute. reflexivity.
Defined.


Lemma Start_returns_witness :
  ∃ p e w', attempt fresh (world (healthy true) [inr generated]
                             [Response 503 (inr ""); Response 200 (inr "ok")]) =
            (Val (p, e), w').
Proof.
  apply (Start_returns decodeLines encodeLines (R:=unit) origin fresh
           (world (healthy true) [inr generated]
              [Response 503 (inr ""); Response 200 (inr "ok")])).
  apply Exists_cons_tl, Exists_cons_hd. reflexivity.
Defined.

End StartSequence.
